(** * Goodreads "Best Books Ever" crawler: a shallow embedding of [dags/app.py]

    The development follows the source file top-down:
    - the parsing helpers [_to_int], [_to_float] and [_parse_row]
      (lines 60-118), over a model of the two regular expressions
      [_num_re] and [_float_re];
    - the crawl task [fetch_goodreads_books] (lines 122-180), a [while]
      loop inside a [try] block, followed by the mock fallback and the
      de-duplication and clipping;
    - the load task [insert_goodreads_into_postgres] (lines 183-213) and
      the table task [create_table_task] (lines 236-252), chained as the
      DAG chains them (line 267).

    Python strings are sequences of Unicode code points.  Which code points
    are decimal digits (what [\d] matches and what [int] and [float] read)
    and how [str.lower] maps a string are properties of the interpreter, not
    of this repository: both are variables of the development and every
    general statement holds for each choice of them.  Concrete runs use the
    ASCII tables [ascii_decimal] and [ascii_lower].

    What the model leaves to the libraries:
    - a float is the exact decimal its text denotes, a rational; the rounding
      to a double is left out;
    - [int] refuses a numeral of more than 4300 digits, the limit the
      interpreter starts with;
    - of the calls into [requests], [bs4] and [pandas] only [session.get]
      raises; a page is the list of its table rows, a row the answers to the
      selectors [_parse_row] uses;
    - a record stands for the values of its cells, a missing cell for
      [None] and for [nan] alike: the data frame of lines 178-179 holds a
      column that mixes numbers and missing cells as floats and [nan], and
      [frame_nan] says when the records it hands on do so in a column of
      whole numbers; the rounding of such a whole number to a double is
      left out as well;
    - the delay before a request and the retries of the scheduler are not
      part of a run. *)

From Stdlib Require Import ZArith NArith QArith List Lia Bool.
From Stdlib Require Import Strings.String Strings.Ascii.
From stdpp Require Import base gmap.

Import ListNotations.
Local Open Scope Z_scope.

(** ** Strings *)

Module Str.

(** A code point, and a Python [str]. *)
Abbreviation char := N (only parsing).
Abbreviation str := (list N) (only parsing).

Definition comma : char := 44%N.
Definition period : char := 46%N.

(** A literal: each byte of an ASCII literal is its own code point. *)
Definition lit (s : string) : str := List.map N_of_ascii (list_ascii_of_string s).
Arguments lit s%_string_scope.

(** [not s] for a string: the empty string is falsy. *)
Definition falsy (s : str) : bool := match s with [] => true | _ => false end.

(** [a.startswith(p)] and [needle in hay]. *)
Fixpoint starts_with (p s : str) : bool :=
  match p, s with
  | [], _ => true
  | c :: p', d :: s' => (c =? d)%N && starts_with p' s'
  | _ :: _, [] => false
  end.

Fixpoint contains (needle hay : str) : bool :=
  starts_with needle hay ||
  match hay with
  | [] => false
  | _ :: t => contains needle t
  end.

(** [s.replace(",", "")] *)
Definition strip_commas (s : str) : str :=
  List.filter (fun c => negb (c =? comma)%N) s.

(** The ASCII part of the two interpreter tables. *)
Definition ascii_decimal (c : char) : option N :=
  if ((48 <=? c) && (c <=? 57))%N then Some (c - 48)%N else None.

Definition ascii_lower (s : str) : str :=
  List.map (fun c => if ((65 <=? c) && (c <=? 90))%N then (c + 32)%N else c) s.

End Str.
Import Str.

(** ** Exceptions *)

Inductive exn :=
| ValueError          (* [int] on a string that is no numeral; "No book data found" *)
| RequestException    (* [session.get]: timeout, connection reset, ... *)
| DatabaseError.      (* the store refuses a statement *)

Inductive result (A : Type) :=
| Returned (a : A)
| Raised (e : exn).
Arguments Returned {A} a.
Arguments Raised {A} e.

(** Sequencing: an exception ends the computation.  With the instances
    below, [x ← r; k] is stdpp's notation for it. *)
#[export] Instance result_ret : MRet result := fun A a => Returned a.
#[export] Instance result_bind : MBind result := fun A B k r =>
  match r with
  | Returned a => k a
  | Raised e => Raised e
  end.

Definition returns {A} (r : result A) : Prop := exists a, r = Returned a.

(** ** Regular expressions (lines 60-61)

    The two patterns are matched by hand-written matchers.  An anchored
    matcher takes the text at a position and gives the matched group and the
    text after it; [re_search] scans for the leftmost position where it
    succeeds, [re_findall] repeats the search on the text after each match. *)

Section Regex.

Variable decimal : char -> option N.

(** [\d] *)
Definition is_digit (c : char) : bool :=
  match decimal c with Some _ => true | None => false end.

(** [[\d,]] *)
Definition is_num_char (c : char) : bool := is_digit c || (c =? comma)%N.

(** The longest prefix whose characters satisfy [p], and the rest: a greedy
    [p*]. *)
Fixpoint span (p : char -> bool) (s : str) : str * str :=
  match s with
  | c :: t =>
      if p c then let '(m, r) := span p t in (c :: m, r) else ([], s)
  | [] => ([], [])
  end.

Definition matcher := str -> option (str * str).

(** [_num_re = re.compile(r"[\d,]+")], anchored. *)
Definition _num_re : matcher := fun s =>
  match span is_num_char s with
  | ([], _) => None
  | (m, r) => Some (m, r)
  end.

(** [_float_re = re.compile(r"\d+(?:\.\d+)?")], anchored: all the digits,
    then, when a period and at least one digit follow, the period and all
    the digits after it. *)
Definition _float_re : matcher := fun s =>
  match span is_digit s with
  | ([], _) => None
  | (ip, r) =>
      match r with
      | c :: r' =>
          if (c =? period)%N then
            match span is_digit r' with
            | ([], _) => Some (ip, r)
            | (fp, r'') => Some (ip ++ c :: fp, r'')
            end
          else Some (ip, r)
      | [] => Some (ip, r)
      end
  end.

(** [re.search]: the text before the match, [m.group(0)], the text after. *)
Fixpoint re_search (re : matcher) (s : str) : option (str * str * str) :=
  match s with
  | [] => None
  | c :: t =>
      match re s with
      | Some (m, r) => Some ([], m, r)
      | None =>
          match re_search re t with
          | Some (pre, m, r) => Some (c :: pre, m, r)
          | None => None
          end
      end
  end.

(** [re.findall], for a pattern that matches no empty string. *)
Fixpoint findall_from (fuel : nat) (re : matcher) (s : str) : list str :=
  match fuel with
  | O => []
  | S fuel' =>
      match re_search re s with
      | Some (_, m, r) => m :: findall_from fuel' re r
      | None => []
      end
  end.

Definition re_findall (re : matcher) (s : str) : list str :=
  findall_from (S (List.length s)) re s.

(** ** [int] and [float] on the numerals the patterns produce

    [int(s)] on a string of decimal digits is its value; it raises
    [ValueError] on the empty string and on a string of more than
    [int_max_str_digits] digits.  [float(s)] on [digits] or
    [digits.digits] is the double nearest to the decimal it denotes: the
    model keeps the decimal itself, as a rational, and leaves the rounding
    out.  Python accepts more numerals (signs, blanks, underscores,
    exponents); the callers below pass none of them. *)

Fixpoint digits_value (acc : N) (s : str) : option N :=
  match s with
  | [] => Some acc
  | c :: t =>
      match decimal c with
      | Some d => digits_value (10 * acc + d)%N t
      | None => None
      end
  end.

(** [sys.get_int_max_str_digits()], as the interpreter starts. *)
Definition int_max_str_digits : N := 4300.

Definition too_long (s : str) : bool :=
  (int_max_str_digits <? N.of_nat (List.length s))%N.

Definition py_int (s : str) : result Z :=
  match s with
  | [] => Raised ValueError
  | _ =>
      if too_long s then Raised ValueError
      else
        match digits_value 0 s with
        | Some n => Returned (Z.of_N n)
        | None => Raised ValueError
        end
  end.

Definition py_float (s : str) : result Q :=
  match span is_digit s with
  | ([], _) => Raised ValueError
  | (ip, []) =>
      match digits_value 0 ip with
      | Some n => Returned (inject_Z (Z.of_N n))
      | None => Raised ValueError
      end
  | (ip, c :: fp) =>
      if (c =? period)%N && negb (falsy fp) && forallb is_digit fp then
        match digits_value 0 (ip ++ fp) with
        | Some n => Returned (Z.of_N n # Pos.pow 10 (Pos.of_nat (List.length fp)))
        | None => Raised ValueError
        end
      else Raised ValueError
  end.

(** ** Parsing helpers (lines 63-75) *)

Definition _to_int (s : option str) : result (option Z) :=
  match s with
  | None => Returned None
  | Some s =>
      if falsy s then Returned None
      else
        match re_search _num_re s with
        | Some (_, m, _) => n ← py_int (strip_commas m); Returned (Some n)
        | None => Returned None
        end
  end.

Definition _to_float (s : option str) : result (option Q) :=
  match s with
  | None => Returned None
  | Some s =>
      if falsy s then Returned None
      else
        match re_search _float_re s with
        | Some (_, m, _) => x ← py_float m; Returned (Some x)
        | None => Returned None
        end
  end.

End Regex.


(** ** Rows and records (lines 77-118)

    A table row is known to the parser through seven queries only.  Each
    field below is the result of one of them: [None] when [select_one] finds
    no element, otherwise the element's text as [get_text] returns it. *)

Record Row := {
  title_span : option str;    (* [a.bookTitle span] *)
  title_link : option str;    (* [a.bookTitle] *)
  author_span : option str;   (* [a.authorName span] *)
  author_link : option str;   (* [a.authorName] *)
  minirating : option str;    (* [span.minirating] *)
  score_link : option str;    (* [a[onclick*="score_explanation"]] *)
  links : list str            (* [tr.select("a")], in document order *)
}.

(** The dictionary [_parse_row] returns. *)
Record Book := {
  title : option str;
  author : option str;
  avg_rating : option Q;
  num_ratings : option Z;
  score : option Z;
  people_voted : option Z
}.

(** [a or b] on two [select_one] results: an element is always truthy. *)
Definition or_else {A} (a b : option A) : option A :=
  match a with
  | Some x => Some x
  | None => b
  end.

(** [max(nums) if nums else None] *)
Definition py_max (nums : list Z) : option Z :=
  match nums with
  | [] => None
  | n :: rest => Some (fold_left Z.max rest n)
  end.

Section Parser.

Variable decimal : char -> option N.
Variable lower : str -> str.

(** [[int(n.replace(",", "")) for n in ...]] (line 94) *)
Fixpoint ints_of (groups : list str) : result (list Z) :=
  match groups with
  | [] => Returned []
  | n :: rest =>
      x ← py_int decimal (strip_commas n);
      xs ← ints_of rest;
      Returned (x :: xs)
  end.

(** The loop over the anchors (lines 105-109). *)
Fixpoint people_voted_of (anchors : list str) : result (option Z) :=
  match anchors with
  | [] => Returned None
  | a :: rest =>
      let txt := lower a in
      if contains (lit "people voted") txt then _to_int decimal (Some txt)
      else people_voted_of rest
  end.

Definition mini_text (tr : Row) : str :=
  match minirating tr with
  | Some t => t
  | None => []
  end.

Definition _parse_row (tr : Row) : result Book :=
  let title := or_else (title_span tr) (title_link tr) in
  let author := or_else (author_span tr) (author_link tr) in
  avg_rating ← _to_float decimal (Some (mini_text tr));
  nums ← ints_of (re_findall (_num_re decimal) (mini_text tr));
  let num_ratings := py_max nums in
  score ← match score_link tr with
          | Some t => _to_int decimal (Some t)
          | None => Returned None
          end;
  people_voted ← people_voted_of (links tr);
  Returned {| title := title; author := author; avg_rating := avg_rating;
              num_ratings := num_ratings; score := score;
              people_voted := people_voted |}.

End Parser.

(** ** The crawl task (lines 122-180) *)

(** What the list source answers to [session.get(LIST_URL, params={"page": p})]:
    an exception, or a response with a status code.  [rows] are the elements
    [soup.select("table.tableList tr")] finds in its body. *)
Inductive Response :=
| Fails
| Http (status : Z) (rows : list Row).

(** What the task does to the outside: the requests it sends and the lines
    it prints. *)
Inductive Event :=
| Get (page : Z)                    (* line 139 *)
| WarnHttp (status page : Z)        (* line 141 *)
| InfoPage (page found total : Z)   (* line 158 *)
| InfoNoNewRows                     (* line 161 *)
| ErrorException (e : exn)          (* line 166 *)
| WarnFallback                      (* line 171 *)
| InfoPushed (n : Z).               (* line 180 *)

(** The local variables of the task. *)
Record Crawl := {
  books : list Book;
  seen : gset str;
  page : Z;
  out : list Event
}.

(** How the [while] loop was left. *)
Inductive Exit :=
| CondFalse          (* the condition of line 135 is false *)
| BreakHttp          (* [break], line 142 *)
| BreakNoNewRows     (* [break], line 162 *)
| Except (e : exn).  (* an exception reached line 165 *)

Definition len {A} (l : list A) : Z := Z.of_nat (List.length l).

(** [l[:n]] and [df.head(n)]: the first [n] elements, all but the last [-n]
    for a negative [n]. *)
Definition head {A} (n : Z) (l : list A) : list A :=
  if 0 <=? n then firstn (Z.to_nat n) l
  else firstn (List.length l - Z.to_nat (- n)) l.

(** [df.drop_duplicates(subset=["title"])]: of the rows with one title the
    first is kept. *)
Fixpoint drop_duplicates_from (keys : list (option str)) (l : list Book) : list Book :=
  match l with
  | [] => []
  | b :: rest =>
      if bool_decide (title b ∈ keys) then drop_duplicates_from keys rest
      else b :: drop_duplicates_from (title b :: keys) rest
  end.

Definition drop_duplicates (l : list Book) : list Book := drop_duplicates_from [] l.

(** The data frame of line 178 holds a column of the records it is built
    from as [float64] when the column mixes numbers and missing cells: the
    numbers as floats and the missing cells as [nan].  A column without a
    missing cell, or with missing cells only, stays as it is. *)
Definition missing {A} (v : option A) : bool :=
  match v with
  | None => true
  | Some _ => false
  end.

Definition mixed {A} (col : Book -> option A) (l : list Book) : bool :=
  existsb (fun b => missing (col b)) l && existsb (fun b => negb (missing (col b))) l.

(** The records of a frame hold [nan] in one of the three columns of whole
    numbers. *)
Definition frame_nan (l : list Book) : bool :=
  mixed num_ratings l || mixed score l || mixed people_voted l.

(** The mock records of lines 173-174. *)
Definition mock_books : list Book :=
  [ {| title := Some (lit "Mock Book A"); author := Some (lit "Jane Example");
       avg_rating := Some 4.25%Q; num_ratings := Some 120345;
       score := Some 98000; people_voted := Some 45000 |};
    {| title := Some (lit "Mock Book B"); author := Some (lit "John Example");
       avg_rating := Some 4.10%Q; num_ratings := Some 80321;
       score := Some 65000; people_voted := Some 30000 |} ].

(** What a run of the task leaves: the value pushed to XCom under
    [book_data], the requests and printed lines, and how the loop ended. *)
Record Run := {
  book_data : list Book;
  trace : list Event;
  exit : Exit
}.

Section Crawler.

Variable decimal : char -> option N.
Variable lower : str -> str.
Variable web : Z -> Response.
Variable num_books max_pages : Z.

Definition say (e : Event) (st : Crawl) : Crawl :=
  {| books := books st; seen := seen st; page := page st; out := out st ++ [e] |}.

(** The [for] loop over the rows of one page (lines 147-156).  The books
    and titles collected so far are kept when a row raises: the lists are
    updated in place. *)
Fixpoint for_rows (rows : list Row) (bs : list Book) (sn : gset str) (page_found : Z)
  : list Book * gset str * Z * option exn :=
  match rows with
  | [] => (bs, sn, page_found, None)
  | tr :: rest =>
      match _parse_row decimal lower tr with
      | Raised e => (bs, sn, page_found, Some e)
      | Returned row =>
          match title row with
          | None => for_rows rest bs sn page_found
          | Some t =>
              if falsy t || bool_decide (t ∈ sn) then for_rows rest bs sn page_found
              else
                let bs' := bs ++ [row] in
                let sn' := {[ t ]} ∪ sn in
                if len bs' >=? num_books then (bs', sn', page_found + 1, None)
                else for_rows rest bs' sn' (page_found + 1)
          end
      end
  end.

(** The condition of the [while] loop (line 135). *)
Definition cond (st : Crawl) : bool :=
  (len (books st) <? num_books) && (page st <=? max_pages).

(** One turn of the loop body (lines 136-164): the state it leaves and, when
    it leaves the loop, how. *)
Definition turn (st : Crawl) : Crawl * option Exit :=
  let st := say (Get (page st)) st in
  match web (page st) with
  | Fails => (st, Some (Except RequestException))
  | Http status rows =>
      if negb (status =? 200) then
        (say (WarnHttp status (page st)) st, Some BreakHttp)
      else
        let '(bs, sn, page_found, raised) := for_rows rows (books st) (seen st) 0 in
        let st := {| books := bs; seen := sn; page := page st; out := out st |} in
        match raised with
        | Some e => (st, Some (Except e))
        | None =>
            let st := say (InfoPage (page st) page_found (len bs)) st in
            if (page_found =? 0) && (1 <? page st) then
              (say InfoNoNewRows st, Some BreakNoNewRows)
            else
              ({| books := bs; seen := sn; page := page st + 1; out := out st |}, None)
        end
  end.

(** The [while] loop (lines 135-164).  Every turn either leaves the loop or
    moves to the next page, so [max_pages] turns and one more test of the
    condition are all it can take; [fuel] counts the tests left. *)
Fixpoint while_loop (fuel : nat) (st : Crawl) : option (Crawl * Exit) :=
  match fuel with
  | O => None
  | S fuel' =>
      if cond st then
        match turn st with
        | (st', Some how) => Some (st', how)
        | (st', None) => while_loop fuel' st'
        end
      else Some (st, CondFalse)
  end.

Definition start : Crawl := {| books := []; seen := ∅; page := 1; out := [] |}.

(** After the loop: the [except] clause, the fallback, the de-duplication
    and the clipping (lines 165-180).  The frame of line 178 is the list of
    its rows and [book_data] the rows [to_dict] gives back: the same rows in
    the same order, a cell of a column that mixes numbers and missing cells
    as a float or [nan] ([frame_nan]). *)
Definition finish (st : Crawl) (how : Exit) : Run :=
  let out1 := match how with
              | Except e => out st ++ [ErrorException e]
              | _ => out st
              end in
  let '(bs, out2) := match books st with
                     | [] => (head num_books mock_books, out1 ++ [WarnFallback])
                     | _ => (books st, out1)
                     end in
  let df := head num_books (drop_duplicates bs) in
  {| book_data := df; trace := out2 ++ [InfoPushed (len df)]; exit := how |}.

Definition fetch_goodreads_books : option Run :=
  match while_loop (S (Z.to_nat max_pages)) start with
  | Some (st, how) => Some (finish st how)
  | None => None
  end.

End Crawler.

(** ** The store and the two tasks on it (lines 183-213 and 236-252)

    The store either has no table [goodreads_books] or has one with its rows
    in insertion order; the [id] column is left out.  A missing [avg_rating]
    stands for [NULL] and for [NaN] alike. *)

Abbreviation Store := (option (list Book)).

Definition drop_table_if_exists (db : Store) : Store := None.

Definition create_table_if_not_exists (db : Store) : Store :=
  match db with
  | Some rows => Some rows
  | None => Some []
  end.

(** The SQL of [create_table_task], statement by statement. *)
Definition create_table_task (db : Store) : Store :=
  create_table_if_not_exists (drop_table_if_exists db).

(** The column constraints of the table: [title TEXT NOT NULL] and the three
    [BIGINT] columns. *)
Definition in_bigint (v : option Z) : bool :=
  match v with
  | Some z => (- 2 ^ 63 <=? z) && (z <? 2 ^ 63)
  | None => true
  end.

Definition accepted (b : Book) : bool :=
  match title b with Some _ => true | None => false end
  && in_bigint (num_ratings b) && in_bigint (score b) && in_bigint (people_voted b).

(** [insert_goodreads_into_postgres]: the store after the commit.  When an
    exception is raised nothing was committed and the store is as before.
    The list the task pulls (line 188) is the one the crawl task pushed, the
    records of a data frame: where these hold [nan] in a [BIGINT] column the
    store refuses the row. *)
Definition insert_goodreads_into_postgres (book_data : list Book) (db : Store)
  : result Store :=
  match book_data with
  | [] => Raised ValueError
  | _ =>
      match db with
      | None => Raised DatabaseError
      | Some rows =>
          if forallb accepted book_data && negb (frame_nan book_data)
          then Returned (Some (rows ++ book_data))
          else Raised DatabaseError
      end
  end.

(** One run of the DAG, [fetch_task >> create_table_task >> insert_task]
    (line 267); retries are left to the scheduler. *)
Record DagRun := {
  fetched : Run;
  failure : option exn;
  store : Store
}.

Definition run_dag (decimal : char -> option N) (lower : str -> str)
    (web : Z -> Response) (num_books max_pages : Z) (db : Store) : option DagRun :=
  match fetch_goodreads_books decimal lower web num_books max_pages with
  | None => None
  | Some run =>
      let db1 := create_table_task db in
      match insert_goodreads_into_postgres (book_data run) db1 with
      | Returned db2 => Some {| fetched := run; failure := None; store := db2 |}
      | Raised e => Some {| fetched := run; failure := Some e; store := db1 |}
      end
  end.

(** ** Vocabulary of the properties *)

(** The text [r] does not go on with a character of class [p]. *)
Definition stops (p : char -> bool) (r : str) : Prop :=
  match r with
  | [] => True
  | c :: _ => p c = false
  end.

(** [m] is the first substring of [s] of shape [pat]: it starts at the
    leftmost position where such a substring starts and is the longest one
    starting there. *)
Definition first_match (pat : str -> Prop) (s pre m post : str) : Prop :=
  s = pre ++ m ++ post /\ pat m /\
  forall pre' m' post', s = pre' ++ m' ++ post' -> pat m' ->
    (List.length pre <= List.length pre')%nat /\
    (List.length pre' = List.length pre -> List.length m' <= List.length m)%nat.

Definition no_match (pat : str -> Prop) (s : str) : Prop :=
  forall pre m post, s = pre ++ m ++ post -> ~ pat m.

(** The successive first matches of [pat] in [s], each searched in the text
    after the one before. *)
Inductive tokens (pat : str -> Prop) : str -> list str -> Prop :=
| tokens_done s : no_match pat s -> tokens pat s []
| tokens_next s pre m post l :
    first_match pat s pre m post -> tokens pat post l -> tokens pat s (m :: l).

Section Shapes.

Variable decimal : char -> option N.

Definition all_digits (s : str) : Prop := Forall (fun c => is_digit decimal c = true) s.

(** The strings [[\d,]+] matches. *)
Definition int_shape (m : str) : Prop :=
  m <> [] /\ Forall (fun c => is_num_char decimal c = true) m.

(** The strings [\d+(?:\.\d+)?] matches. *)
Definition float_shape (m : str) : Prop :=
  exists ip, ip <> [] /\ all_digits ip /\
    (m = ip \/ exists fp, fp <> [] /\ all_digits fp /\ m = ip ++ period :: fp).

End Shapes.

(** [int] reads the group [g] once its commas are removed: a digit is left,
    and no more digits than the limit. *)
Definition readable (g : str) : Prop :=
  strip_commas g <> [] /\ too_long (strip_commas g) = false.

(** Every integer token of [s] is readable. *)
Definition spotless (decimal : char -> option N) (s : str) : Prop :=
  forall groups, tokens (int_shape decimal) s groups -> Forall readable groups.

(** The first integer token of [s], if there is one, is readable. *)
Definition first_spotless (decimal : char -> option N) (s : str) : Prop :=
  forall pre m post, first_match (int_shape decimal) s pre m post -> readable m.

(** The lowercased text of the first anchor that contains "people voted"
    (lines 105-107). *)
Definition voted_anchor (lower : str -> str) (anchors : list str) : option str :=
  List.find (contains (lit "people voted")) (List.map lower anchors).

(** [v] is the number the first integer token of [s] denotes, commas
    removed, or null when [s] has no integer token. *)
Definition first_int (decimal : char -> option N) (s : str) (v : option Z) : Prop :=
  match v with
  | Some n => exists pre m post, first_match (int_shape decimal) s pre m post /\
                                 py_int decimal (strip_commas m) = Returned n
  | None => no_match (int_shape decimal) s
  end.

(** [v] is [max(l)], or [None] for an empty [l]. *)
Definition is_max (l : list Z) (v : option Z) : Prop :=
  match v with
  | Some n => In n l /\ Forall (fun k => k <= n) l
  | None => l = []
  end.

(** The pages a trace requested, in order. *)
Fixpoint requests (tr : list Event) : list Z :=
  match tr with
  | [] => []
  | Get p :: rest => p :: requests rest
  | _ :: rest => requests rest
  end.

(** Pages [1 .. k]. *)
Definition pages (k : nat) : list Z := List.map Z.of_nat (seq 1 k).

(** The rows the crawler reads on page [p]: those of a 200 response. *)
Definition rows_of (web : Z -> Response) (p : Z) : list Row :=
  match web p with
  | Http status rows => if status =? 200 then rows else []
  | Fails => []
  end.

(** The rows of pages [1 .. max_pages], in page and row order. *)
Definition discovery (web : Z -> Response) (max_pages : Z) : list Row :=
  flat_map (rows_of web) (pages (Z.to_nat max_pages)).

(** The title the markup of a row carries, and whether the crawler can use
    it (line 150). *)
Definition row_title (tr : Row) : option str := or_else (title_span tr) (title_link tr).

Definition usable (t : option str) : Prop := exists s, t = Some s /\ s <> [].

(** [ts] are distinct usable titles, each on one of [rows]. *)
Definition discoverable (rows : list Row) (ts : list str) : Prop :=
  NoDup ts /\
  forall t, In t ts -> t <> [] /\ exists tr, In tr rows /\ row_title tr = Some t.

(** [b] is what the first row of [rows] with its title parses to. *)
Definition first_found (parse : Row -> result Book) (rows : list Row) (b : Book) : Prop :=
  exists pre tr post, rows = pre ++ tr :: post /\ parse tr = Returned b /\
    forall tr', In tr' pre -> exists b', parse tr' = Returned b' /\ title b' <> title b.

(** What the crawler holds once it has read the rows [read]: every row
    parsed, every usable title met is in [sn], [bs] holds for each title
    of [sn] what the first row with it parsed to, and nothing else. *)
Record collected (parse : Row -> result Book) (read : list Row)
    (bs : list Book) (sn : gset str) : Prop := {
  col_parsed : forall tr, In tr read ->
    exists b, parse tr = Returned b /\ forall t, title b = Some t -> t <> [] -> t ∈ sn;
  col_first : forall b, In b bs -> first_found parse read b;
  col_seen : forall t, t ∈ sn <-> exists b, In b bs /\ title b = Some t;
  col_usable : forall b, In b bs -> usable (title b);
  col_nodup : NoDup (List.map title bs)
}.

(** Where the crawl stands once it has requested pages [1 .. k]: the rows
    of these pages are [read ++ rest], the rows [read] are collected, and
    [unread] says why the rows [rest], if any, were not read. *)
Definition crawled (parse : Row -> result Book) (web : Z -> Response)
    (num_books max_pages : Z) (k : nat) (st : Crawl) (unread : list Row -> Prop) : Prop :=
  exists read rest,
    Z.of_nat k <= Z.max 0 max_pages /\
    requests (out st) = pages k /\
    flat_map (rows_of web) (pages k) = read ++ rest /\
    collected parse read (books st) (seen st) /\
    len (books st) <= Z.max 0 num_books /\
    unread rest.

(** At the test of the loop condition: what is unread is so because the
    target was reached. *)
Definition at_head (parse : Row -> result Book) (web : Z -> Response)
    (num_books max_pages : Z) (st : Crawl) : Prop :=
  exists k : nat, page st = Z.of_nat k + 1 /\
    crawled parse web num_books max_pages k st
      (fun rest => rest = [] \/ len (books st) = num_books).

(** When the loop is left: after an exception the unread rows may start with
    a row whose parsing raised it. *)
Definition at_exit (parse : Row -> result Book) (web : Z -> Response)
    (num_books max_pages : Z) (st : Crawl) (how : Exit) : Prop :=
  exists k : nat,
    crawled parse web num_books max_pages k st
      (fun rest =>
         match how with
         | Except e => rest = [] \/ exists tr rest', rest = tr :: rest' /\ parse tr = Raised e
         | _ => rest = [] \/ len (books st) = num_books
         end).

(** The distinct usable titles of some rows, each where it first occurs. *)
Definition note_title (acc : list str) (tr : Row) : list str :=
  match row_title tr with
  | Some t => if falsy t || bool_decide (t ∈ acc) then acc else acc ++ [t]
  | None => acc
  end.

Definition first_titles (rows : list Row) : list str := fold_left note_title rows [].

(** The records [bs] carry, in order, the distinct usable titles of the rows
    [read], and [sn] is the set of these titles. *)
Definition in_order (read : list Row) (bs : list Book) (sn : gset str) : Prop :=
  List.map title bs = List.map Some (first_titles read) /\
  forall t, t ∈ sn <-> In t (first_titles read).

(** The ordered counterpart of [crawled]. *)
Definition crawled_in_order (web : Z -> Response) (k : nat) (st : Crawl)
    (unread : list Row -> Prop) : Prop :=
  exists read rest,
    requests (out st) = pages k /\
    flat_map (rows_of web) (pages k) = read ++ rest /\
    in_order read (books st) (seen st) /\
    unread rest.

(** The events of the loop: a request or one of the lines printed inside
    it. *)
Definition loop_event (e : Event) : Prop :=
  match e with
  | Get _ | WarnHttp _ _ | InfoPage _ _ _ | InfoNoNewRows => True
  | _ => False
  end.

(** What each way of leaving the loop tells about the run, [k] being the
    last page requested. *)
Definition stop_reason (parse : Row -> result Book) (web : Z -> Response)
    (num_books max_pages : Z) (st : Crawl) (how : Exit) (k : nat) : Prop :=
  match how with
  | CondFalse => num_books <= len (books st) \/ max_pages <= Z.of_nat k
  | BreakHttp =>
      (1 <= k)%nat /\
      exists status rows, web (Z.of_nat k) = Http status rows /\ status <> 200
  | BreakNoNewRows =>
      (2 <= k)%nat /\
      (exists rows, web (Z.of_nat k) = Http 200 rows) /\
      In (InfoPage (Z.of_nat k) 0 (len (books st))) (out st)
  | Except RequestException => (1 <= k)%nat /\ web (Z.of_nat k) = Fails
  | Except ValueError =>
      (1 <= k)%nat /\
      exists rows tr, web (Z.of_nat k) = Http 200 rows /\ In tr rows /\
                      parse tr = Raised ValueError
  | Except DatabaseError => False
  end.

(** A source none of whose rows, on the pages within [max_pages], has a
    usable title. *)
Definition barren (web : Z -> Response) (max_pages : Z) : Prop :=
  forall p tr, 1 <= p <= max_pages -> In tr (rows_of web p) -> ~ usable (row_title tr).

(** ** Sample inputs *)

Module Samples.

Definition em_dash : str := [8212%N].

(** The rating text of the list markup, as line 90 quotes it. *)
Definition rating_text : str :=
  lit "4.28 avg rating " ++ em_dash ++ lit " 9,117,773 ratings".

(** A row with a title link and a rating text. *)
Definition row (t mini : str) : Row :=
  {| title_span := Some t; title_link := Some t;
     author_span := None; author_link := None;
     minirating := Some mini; score_link := None; links := [t] |}.

Definition dune : Row :=
  {| title_span := Some (lit "Dune"); title_link := Some (lit "Dune");
     author_span := Some (lit "Frank Herbert"); author_link := Some (lit "Frank Herbert");
     minirating := Some rating_text;
     score_link := Some (lit "score: 2,947,818");
     links := [lit "Dune"; lit "Frank Herbert"; lit "score: 2,947,818";
               lit "30,210 people voted"] |}.

Definition dune_record : Book :=
  {| title := Some (lit "Dune"); author := Some (lit "Frank Herbert");
     avg_rating := Some 4.28%Q; num_ratings := Some 9117773;
     score := Some 2947818; people_voted := Some 30210 |}.

(** A source with one page of three rows; the rating text of the second
    separates its two parts with a comma. *)
Definition comma_web (p : Z) : Response :=
  if p =? 1 then
    Http 200 [ row (lit "Emma") (lit "4.05 avg rating " ++ em_dash ++ lit " 977 ratings");
               row (lit "Ulysses") (lit "3.75 avg rating, 2,113 ratings");
               row (lit "Walden") (lit "3.78 avg rating " ++ em_dash ++ lit " 1,024 ratings") ]
  else Http 200 [].

(** A source whose only row has such a rating text. *)
Definition broken_web (p : Z) : Response :=
  if p =? 1 then Http 200 [ row (lit "Ulysses") (lit "3.75 avg rating, 2,113 ratings") ]
  else Http 200 [].

(** A source whose first page has no rows and whose second page has two. *)
Definition late_web (p : Z) : Response :=
  if p =? 2 then
    Http 200 [ row (lit "Emma") (lit "4.05 avg rating"); row (lit "Walden") (lit "3.78 avg rating") ]
  else Http 200 [].

(** A source that answers every request with a page without rows. *)
Definition empty_web (p : Z) : Response := Http 200 [].

(** The scenario of two pages: two rows, then a new row and a repeat. *)
Definition two_page_web (p : Z) : Response :=
  if p =? 1 then
    Http 200 [ row (lit "Emma") (lit "4.05 avg rating"); row (lit "Walden") (lit "3.78 avg rating") ]
  else if p =? 2 then
    Http 200 [ row (lit "Ulysses") (lit "3.75 avg rating"); row (lit "Emma") (lit "1.00 avg rating") ]
  else Http 200 [].

(** The source [empty_web], except that a request for page 9 fails. *)
Definition patchy_web (p : Z) : Response :=
  if p =? 9 then Fails else empty_web p.


(** A record a former run left in the table. *)
Definition old_record : Book :=
  {| title := Some (lit "Emma"); author := Some (lit "Jane Austen");
     avg_rating := Some 4.05%Q; num_ratings := Some 977;
     score := None; people_voted := None |}.

End Samples.

(** * Properties *)

(** ** The regular expressions *)

Section RegexFacts.

Variable decimal : char -> option N.

Lemma span_spec p s m r :
  span p s = (m, r) -> s = m ++ r /\ forallb p m = true /\ stops p r.
Proof.
  revert m r. induction s as [|c t IH]; intros m r H; simpl in H.
  - inversion H; subst. repeat split.
  - destruct (p c) eqn:Hc.
    + destruct (span p t) as [m0 r0]. inversion H; subst.
      destruct (IH m0 r eq_refl) as (-> & Hm & Hr).
      simpl. rewrite Hc, Hm. repeat split. exact Hr.
    + inversion H; subst. simpl. repeat split. exact Hc.
Qed.

Lemma span_app p m r :
  forallb p m = true -> stops p r -> span p (m ++ r) = (m, r).
Proof.
  induction m as [|c m IH]; simpl; intros Hm Hr.
  - destruct r as [|d r]; [reflexivity|]. simpl in *. now rewrite Hr.
  - apply andb_true_iff in Hm as [Hc Hm]. now rewrite Hc, IH.
Qed.

Lemma span_prefix p m post :
  forallb p m = true -> exists m2 r, span p (m ++ post) = (m ++ m2, r) /\ post = m2 ++ r.
Proof.
  induction m as [|c m IH]; simpl; intros Hm.
  - destruct (span p post) as [m2 r] eqn:E. exists m2, r. split; [reflexivity|].
    now apply span_spec in E.
  - apply andb_true_iff in Hm as [Hc Hm]. rewrite Hc.
    destruct (IH Hm) as (m2 & r & -> & E). now exists m2, r.
Qed.

Lemma forallb_Forall_true (p : char -> bool) (s : str) :
  forallb p s = true <-> Forall (fun c => p c = true) s.
Proof.
  rewrite forallb_forall, List.Forall_forall. reflexivity.
Qed.

(** *** The integer pattern *)

Lemma num_re_sound s m r :
  _num_re decimal s = Some (m, r) -> s = m ++ r /\ int_shape decimal m.
Proof.
  unfold _num_re. destruct (span _ s) as [m0 r0] eqn:E.
  apply span_spec in E as (-> & Hm & _).
  destruct m0 as [|c m0]; intros H; inversion H; subst.
  split; [reflexivity|]. split; [discriminate|].
  now apply forallb_Forall_true.
Qed.

Lemma num_re_complete m post :
  int_shape decimal m ->
  exists m2 r, _num_re decimal (m ++ post) = Some (m2, r) /\
               (List.length m <= List.length m2)%nat.
Proof.
  intros [Hne Hm]. apply forallb_Forall_true in Hm.
  destruct (span_prefix _ m post Hm) as (m2 & r & E & _).
  unfold _num_re. rewrite E. destruct m as [|c m]; [congruence|].
  simpl. eexists _, _. split; [reflexivity|]. simpl. rewrite length_app. lia.
Qed.

Lemma int_shape_nonempty m : int_shape decimal m -> m <> [].
Proof. now intros [H _]. Qed.

(** *** The decimal pattern *)

Lemma float_re_sound s m r :
  _float_re decimal s = Some (m, r) -> s = m ++ r /\ float_shape decimal m.
Proof.
  unfold _float_re. destruct (span _ s) as [ip r0] eqn:E.
  apply span_spec in E as (-> & Hip & Hr0).
  apply forallb_Forall_true in Hip.
  destruct ip as [|c ip]; [discriminate|].
  assert (Hshape : float_shape decimal (c :: ip)).
  { exists (c :: ip). split; [discriminate|]. split; [exact Hip|now left]. }
  destruct r0 as [|d r'].
  { intros H; inversion H; subst. now rewrite app_nil_r. }
  destruct (d =? period)%N eqn:Hd.
  2: { intros H; inversion H; subst. split; [reflexivity|exact Hshape]. }
  apply N.eqb_eq in Hd. subst d.
  destruct (span _ r') as [fp r''] eqn:E'.
  apply span_spec in E' as (-> & Hfp & _).
  apply forallb_Forall_true in Hfp.
  destruct fp as [|f fp]; intros H; inversion H; subst.
  { split; [reflexivity|exact Hshape]. }
  split.
  - simpl. now rewrite <- app_assoc.
  - exists (c :: ip). split; [discriminate|]. split; [exact Hip|].
    right. exists (f :: fp). split; [discriminate|]. split; [exact Hfp|reflexivity].
Qed.

Lemma float_re_nonempty_digits ip post :
  ip <> [] -> all_digits decimal ip ->
  exists m r, _float_re decimal (ip ++ post) = Some (m, r) /\
    exists ip2 rest, m = ip ++ ip2 ++ rest /\ span (is_digit decimal) (ip ++ post) = (ip ++ ip2, rest ++ r).
Proof.
  intros Hne Hip. apply forallb_Forall_true in Hip.
  destruct (span_prefix _ ip post Hip) as (ip2 & r0 & E & Hpost).
  unfold _float_re. rewrite E.
  destruct (ip ++ ip2) as [|c0 l0] eqn:Ei.
  { destruct ip; [congruence|discriminate]. }
  rewrite <- Ei.
  destruct r0 as [|d r'].
  { eexists _, _. split; [reflexivity|]. exists ip2, []. now rewrite !app_nil_r. }
  destruct (d =? period)%N eqn:Hd.
  2: { eexists _, _. split; [reflexivity|]. exists ip2, []. now rewrite !app_nil_r. }
  destruct (span _ r') as [fp r''] eqn:E'.
  destruct fp as [|f fp].
  { eexists _, _. split; [reflexivity|]. exists ip2, []. now rewrite !app_nil_r. }
  eexists _, _. split; [reflexivity|]. exists ip2, (d :: f :: fp).
  split; [now rewrite <- app_assoc|].
  apply span_spec in E' as (-> & _ & _). reflexivity.
Qed.

Lemma float_re_complete m post :
  float_shape decimal m ->
  exists m2 r, _float_re decimal (m ++ post) = Some (m2, r) /\
               (List.length m <= List.length m2)%nat.
Proof.
  intros (ip & Hne & Hip & [-> | (fp & Hfne & Hfp & ->)]).
  - destruct (float_re_nonempty_digits ip post Hne Hip)
      as (m2 & r & E & ip2 & rest & -> & _).
    exists (ip ++ ip2 ++ rest), r. split; [exact E|]. rewrite !length_app. lia.
  - rewrite <- app_assoc. simpl.
    destruct (is_digit decimal period) eqn:Hp.
    + (* the period counts as a digit: the whole of [m] is in the integer part *)
      assert (Hall : all_digits decimal (ip ++ period :: fp)).
      { apply Forall_app; split; [exact Hip|]. constructor; [exact Hp|exact Hfp]. }
      assert (Hne' : ip ++ period :: fp <> []) by (destruct ip; discriminate).
      destruct (float_re_nonempty_digits _ post Hne' Hall)
        as (m2 & r & E & ip2 & rest & -> & _).
      rewrite <- app_assoc in E. simpl in E.
      eexists _, _. split; [exact E|]. rewrite !length_app. lia.
    + apply forallb_Forall_true in Hip, Hfp.
      unfold _float_re.
      rewrite (span_app _ ip (period :: fp ++ post) Hip Hp).
      destruct ip as [|c ip]; [congruence|].
      rewrite N.eqb_refl.
      destruct (span_prefix _ fp post Hfp) as (fp2 & r & E & _). rewrite E.
      destruct fp as [|f fp]; [congruence|]. simpl.
      eexists _, _. split; [reflexivity|].
      simpl. rewrite !length_app. simpl. rewrite !length_app. lia.
Qed.

Lemma float_shape_nonempty m : float_shape decimal m -> m <> [].
Proof.
  intros (ip & Hne & _ & [-> | (fp & _ & _ & ->)]); [exact Hne|].
  destruct ip; discriminate.
Qed.

End RegexFacts.

(** ** Searching *)

Section SearchFacts.

Variable re : matcher.
Variable pat : str -> Prop.
Hypothesis re_sound : forall s m r, re s = Some (m, r) -> s = m ++ r /\ pat m.
Hypothesis re_complete : forall m post, pat m ->
  exists m2 r, re (m ++ post) = Some (m2, r) /\ (List.length m <= List.length m2)%nat.
Hypothesis pat_nonempty : forall m, pat m -> m <> [].

Lemma re_search_none s : re_search re s = None -> no_match pat s.
Proof.
  induction s as [|c t IH]; intros H pre m post E Hm.
  - destruct pre; [|discriminate]. destruct m; [|discriminate].
    now apply (pat_nonempty []).
  - simpl in H. destruct (re (c :: t)) as [[m0 r0]|] eqn:Hre; [discriminate|].
    destruct (re_search re t) as [[[p0 m0] r0]|] eqn:Hs; [discriminate|].
    destruct pre as [|d pre].
    + simpl in E. destruct (re_complete m post Hm) as (m2 & r & Hre' & _).
      rewrite <- E in Hre'. congruence.
    + simpl in E. inversion E; subst. now apply (IH eq_refl pre m post).
Qed.

Lemma re_search_first s pre m post :
  re_search re s = Some (pre, m, post) -> first_match pat s pre m post.
Proof.
  revert pre. induction s as [|c t IH]; intros pre H; [discriminate|].
  simpl in H. destruct (re (c :: t)) as [[m0 r0]|] eqn:Hre.
  - inversion H; subst. destruct (re_sound _ _ _ Hre) as [E Hm].
    split; [exact E|]. split; [exact Hm|].
    intros pre' m' post' E' Hm'. split; [simpl; lia|].
    intros Hlen. destruct pre' as [|d pre']; [|discriminate].
    simpl in E'. destruct (re_complete m' post' Hm') as (m2 & r & Hre' & Hle).
    rewrite <- E' in Hre'. rewrite Hre in Hre'. now inversion Hre'; subst.
  - destruct (re_search re t) as [[[p0 m0] r0]|] eqn:Hs; [|discriminate].
    inversion H; subst. destruct (IH p0 eq_refl) as (E & Hm & Hfirst).
    split; [simpl; now rewrite E|]. split; [exact Hm|].
    intros pre' m' post' E' Hm'. destruct pre' as [|d pre'].
    + simpl in E'. destruct (re_complete m' post' Hm') as (m2 & r & Hre' & _).
      rewrite <- E' in Hre'. congruence.
    + simpl in E'. inversion E'; subst d.
      destruct (Hfirst pre' m' post' H2 Hm') as [Hle Hlong].
      split; [simpl; lia|]. simpl. intros Hlen. apply Hlong. lia.
Qed.

Lemma re_search_shorter s pre m post :
  re_search re s = Some (pre, m, post) -> (List.length post < List.length s)%nat.
Proof.
  intros H. destruct (re_search_first _ _ _ _ H) as (-> & Hm & _).
  apply pat_nonempty in Hm. destruct m; [congruence|].
  rewrite !length_app. simpl. lia.
Qed.

(** More fuel than characters is enough for [re.findall]. *)
Lemma findall_from_enough fuel fuel' s :
  (List.length s < fuel)%nat -> (List.length s < fuel')%nat ->
  findall_from fuel re s = findall_from fuel' re s.
Proof.
  revert fuel' s. induction fuel as [|fuel IH]; intros [|fuel'] s H H'; try lia.
  simpl. destruct (re_search re s) as [[[p0 m0] r0]|] eqn:Hs; [|reflexivity].
  f_equal. apply re_search_shorter in Hs. apply IH; lia.
Qed.

Lemma re_findall_unfold s :
  re_findall re s =
    match re_search re s with
    | Some (_, m, r) => m :: re_findall re r
    | None => []
    end.
Proof.
  unfold re_findall at 1. simpl.
  destruct (re_search re s) as [[[p0 m0] r0]|] eqn:Hs; [|reflexivity].
  f_equal. apply re_search_shorter in Hs. apply findall_from_enough; lia.
Qed.

Lemma re_findall_tokens s : tokens pat s (re_findall re s).
Proof.
  remember (List.length s) as n eqn:Hn.
  revert s Hn. induction n as [n IH] using lt_wf_ind. intros s ->.
  rewrite re_findall_unfold.
  destruct (re_search re s) as [[[p0 m0] r0]|] eqn:Hs.
  - apply tokens_next with (pre := p0) (post := r0).
    + now apply re_search_first.
    + apply (IH (List.length r0)); [|reflexivity].
      now apply re_search_shorter in Hs.
  - apply tokens_done. now apply re_search_none.
Qed.

End SearchFacts.

(** ** The parsing helpers *)

Section ExtractorFacts.

Variable decimal : char -> option N.

Lemma num_search_first s pre m post :
  re_search (_num_re decimal) s = Some (pre, m, post) ->
  first_match (int_shape decimal) s pre m post.
Proof.
  apply re_search_first.
  - apply num_re_sound.
  - apply num_re_complete.
Qed.

Lemma num_search_none s :
  re_search (_num_re decimal) s = None -> no_match (int_shape decimal) s.
Proof.
  apply re_search_none.
  - apply num_re_complete.
  - apply int_shape_nonempty.
Qed.

Lemma num_findall_tokens s :
  tokens (int_shape decimal) s (re_findall (_num_re decimal) s).
Proof.
  apply re_findall_tokens.
  - apply num_re_sound.
  - apply num_re_complete.
  - apply int_shape_nonempty.
Qed.

Lemma float_search_first s pre m post :
  re_search (_float_re decimal) s = Some (pre, m, post) ->
  first_match (float_shape decimal) s pre m post.
Proof.
  apply re_search_first.
  - apply float_re_sound.
  - apply float_re_complete.
Qed.

Lemma float_search_none s :
  re_search (_float_re decimal) s = None -> no_match (float_shape decimal) s.
Proof.
  apply re_search_none.
  - apply float_re_complete.
  - apply float_shape_nonempty.
Qed.

(** *** [int] and [float] on matched groups *)

Lemma digits_value_all acc s :
  all_digits decimal s -> exists n, digits_value decimal acc s = Some n.
Proof.
  intros H. revert acc. induction H as [|c s Hc _ IH]; intros acc; simpl.
  - now exists acc.
  - unfold is_digit in Hc. destruct (decimal c); [apply IH|discriminate].
Qed.

Lemma py_int_digits s :
  s <> [] -> too_long s = false -> all_digits decimal s -> returns (py_int decimal s).
Proof.
  intros Hne Hlen Hs. destruct (digits_value_all 0 s Hs) as [n Hn].
  exists (Z.of_N n). unfold py_int. rewrite Hlen, Hn. destruct s; [congruence|reflexivity].
Qed.

Lemma strip_commas_digits m :
  Forall (fun c => is_num_char decimal c = true) m -> all_digits decimal (strip_commas m).
Proof.
  induction 1 as [|c m Hc _ IH]; simpl; [constructor|].
  destruct (c =? comma)%N eqn:E; simpl; [exact IH|].
  constructor; [|exact IH].
  unfold is_num_char in Hc. rewrite E, orb_false_r in Hc. exact Hc.
Qed.

(** On a matched group [int] returns exactly when the group is readable: it
    holds a digit, and no more digits than the limit. *)
Lemma py_int_group m :
  int_shape decimal m ->
  (readable m -> returns (py_int decimal (strip_commas m))) /\
  (~ readable m -> py_int decimal (strip_commas m) = Raised ValueError).
Proof.
  intros [_ Hm]. split.
  - intros [Hne Hlen]. apply py_int_digits; [exact Hne|exact Hlen|].
    now apply strip_commas_digits.
  - intros Hbad. unfold py_int. destruct (strip_commas m) as [|c l] eqn:E; [reflexivity|].
    destruct (too_long (c :: l)) eqn:Hlen; [reflexivity|].
    exfalso. apply Hbad. split; [rewrite E; discriminate|now rewrite E].
Qed.

Lemma readable_dec m : readable m \/ ~ readable m.
Proof.
  unfold readable. destruct (strip_commas m) as [|c l]; [right; now intros [H _]|].
  destruct (too_long (c :: l)); [right; now intros [_ H]|left].
  split; [discriminate|reflexivity].
Qed.

Lemma py_float_shape m : float_shape decimal m -> returns (py_float decimal m).
Proof.
  assert (Hint : forall s, s <> [] -> all_digits decimal s -> returns (py_float decimal s)).
  { intros s Hne Hs. destruct (digits_value_all 0 s Hs) as [n Hn].
    apply forallb_Forall_true in Hs.
    unfold py_float. rewrite <- (app_nil_r s) at 1.
    rewrite (span_app _ s [] Hs I). rewrite Hn.
    destruct s; [congruence|]. now eexists. }
  intros (ip & Hne & Hip & [-> | (fp & Hfne & Hfp & ->)]); [now apply Hint|].
  destruct (is_digit decimal period) eqn:Hp.
  - apply Hint; [destruct ip; discriminate|].
    apply Forall_app; split; [exact Hip|]. now constructor.
  - assert (Hall : all_digits decimal (ip ++ fp)) by (apply Forall_app; now split).
    destruct (digits_value_all 0 _ Hall) as [n Hn].
    apply forallb_Forall_true in Hip, Hfp.
    unfold py_float. rewrite (span_app _ ip (period :: fp) Hip Hp).
    destruct ip as [|c ip]; [congruence|].
    rewrite N.eqb_refl, Hfp, Hn. destruct fp; [congruence|]. simpl. now eexists.
Qed.

(** *** [_to_float] *)

Lemma _to_float_returns s : returns (_to_float decimal s).
Proof.
  destruct s as [s|]; simpl; [|now eexists].
  destruct (falsy s); [now eexists|].
  destruct (re_search (_float_re decimal) s) as [[[pre m] post]|] eqn:Hs; [|now eexists].
  apply float_search_first in Hs as (_ & Hm & _).
  destruct (py_float_shape m Hm) as [x Hx]. rewrite Hx. now eexists.
Qed.

Lemma _to_float_first s v :
  _to_float decimal (Some s) = Returned v ->
  match v with
  | Some x => exists pre m post, first_match (float_shape decimal) s pre m post /\
                                 py_float decimal m = Returned x
  | None => no_match (float_shape decimal) s
  end.
Proof.
  simpl. destruct (falsy s) eqn:Hf.
  - destruct s; [|discriminate]. intros H; inversion H; subst.
    intros pre m post E Hm. apply float_shape_nonempty in Hm.
    destruct pre; [|discriminate]. destruct m; [congruence|discriminate].
  - destruct (re_search (_float_re decimal) s) as [[[pre m] post]|] eqn:Hs.
    + destruct (py_float decimal m) as [x|e] eqn:Hx; simpl; intros H; inversion H; subst.
      exists pre, m, post. split; [now apply float_search_first|exact Hx].
    + intros H; inversion H; subst. now apply float_search_none.
Qed.

(** *** [_to_int] *)

Lemma _to_int_first s v :
  _to_int decimal (Some s) = Returned v ->
  match v with
  | Some n => exists pre m post, first_match (int_shape decimal) s pre m post /\
                                 py_int decimal (strip_commas m) = Returned n
  | None => no_match (int_shape decimal) s
  end.
Proof.
  simpl. destruct (falsy s) eqn:Hf.
  - destruct s; [|discriminate]. intros H; inversion H; subst.
    intros pre m post E Hm. apply int_shape_nonempty in Hm.
    destruct pre; [|discriminate]. destruct m; [congruence|discriminate].
  - destruct (re_search (_num_re decimal) s) as [[[pre m] post]|] eqn:Hs.
    + destruct (py_int decimal (strip_commas m)) as [x|e] eqn:Hx; simpl;
        intros H; inversion H; subst.
      exists pre, m, post. split; [now apply num_search_first|exact Hx].
    + intros H; inversion H; subst. now apply num_search_none.
Qed.

(** [_to_int] returns a number when the first match is readable, and raises
    when it is not: when it holds separators only, or too many digits. *)
Lemma _to_int_group s pre m post :
  s <> [] -> re_search (_num_re decimal) s = Some (pre, m, post) ->
  (readable m ->
     exists n, py_int decimal (strip_commas m) = Returned n /\
               _to_int decimal (Some s) = Returned (Some n)) /\
  (~ readable m -> _to_int decimal (Some s) = Raised ValueError).
Proof.
  intros Hne Hs. pose proof (num_search_first _ _ _ _ Hs) as (_ & Hm & _).
  destruct (py_int_group m Hm) as [Hok Hbad].
  unfold _to_int. destruct s as [|c0 s0]; [congruence|]. simpl falsy. cbv iota. rewrite Hs.
  split; intros H.
  - destruct (Hok H) as [n Hn]. exists n. now rewrite Hn.
  - now rewrite (Hbad H).
Qed.

End ExtractorFacts.

Lemma first_match_unique pat s pre m post pre' m' post' :
  first_match pat s pre m post -> first_match pat s pre' m' post' ->
  pre = pre' /\ m = m' /\ post = post'.
Proof.
  intros (E & Hm & H) (E' & Hm' & H').
  destruct (H pre' m' post' E' Hm') as [Hle Hlong].
  destruct (H' pre m post E Hm) as [Hle' Hlong'].
  assert (Hpre : List.length pre = List.length pre') by lia.
  assert (Hlen : List.length m = List.length m').
  { specialize (Hlong (eq_sym Hpre)). specialize (Hlong' Hpre). lia. }
  rewrite E in E'.
  apply app_inj_1 in E' as [-> E']; [|exact Hpre].
  apply app_inj_1 in E' as [-> ->]; [|exact Hlen].
  now repeat split.
Qed.

Lemma tokens_unique pat s l l' : tokens pat s l -> tokens pat s l' -> l = l'.
Proof.
  intros H. revert l'. induction H as [s Hno|s pre m post l Hfirst _ IH]; intros l' H'.
  - inversion H' as [|? pre m post l0 (E & Hm & _)]; subst; [reflexivity|].
    now destruct (Hno pre m post eq_refl).
  - inversion H' as [? Hno|? pre' m' post' l0 Hfirst' Htl]; subst.
    + destruct Hfirst as (E & Hm & _). now destruct (Hno pre m post E).
    + destruct (first_match_unique _ _ _ _ _ _ _ _ Hfirst Hfirst') as (_ & -> & ->).
      f_equal. now apply IH.
Qed.

Lemma py_max_is_max l : is_max l (py_max l).
Proof.
  destruct l as [|n rest]; simpl; [reflexivity|].
  assert (H : forall rest acc, (acc = fold_left Z.max rest acc \/ In (fold_left Z.max rest acc) rest)
                               /\ acc <= fold_left Z.max rest acc
                               /\ Forall (fun k => k <= fold_left Z.max rest acc) rest).
  { clear. induction rest as [|x rest IH]; intros acc; simpl.
    - split; [now left|]. split; [lia|constructor].
    - destruct (IH (Z.max acc x)) as (Hin & Hle & Hall). split; [|split].
      + destruct Hin as [Hin|Hin]; [|now right; right].
        destruct (Z.max_spec acc x) as [[_ E]|[_ E]]; rewrite E in Hin.
        * right. left. rewrite E. exact Hin.
        * left. rewrite E. exact Hin.
      + lia.
      + constructor; [lia|exact Hall]. }
  destruct (H rest n) as (Hin & Hle & Hall). split.
  - destruct Hin as [Hin|Hin]; [left; exact Hin|now right].
  - constructor; [exact Hle|exact Hall].
Qed.

Section ParserFacts.

Variable decimal : char -> option N.
Variable lower : str -> str.

Lemma ints_of_each groups nums :
  ints_of decimal groups = Returned nums ->
  Forall2 (fun g n => py_int decimal (strip_commas g) = Returned n) groups nums.
Proof.
  revert nums. induction groups as [|g groups IH]; simpl; intros nums H.
  - inversion H. constructor.
  - destruct (py_int decimal (strip_commas g)) as [x|e] eqn:Hx; simpl in H; [|discriminate].
    destruct (ints_of decimal groups) as [xs|e] eqn:Hxs; simpl in H; [|discriminate].
    inversion H; subst. constructor; [exact Hx|now apply IH].
Qed.

(** What [_parse_row] returns, field by field. *)
Lemma _parse_row_returned tr row :
  _parse_row decimal lower tr = Returned row ->
  title row = row_title tr /\
  _to_float decimal (Some (mini_text tr)) = Returned (avg_rating row) /\
  exists nums, ints_of decimal (re_findall (_num_re decimal) (mini_text tr)) = Returned nums /\
               num_ratings row = py_max nums.
Proof.
  unfold _parse_row.
  destruct (_to_float decimal (Some (mini_text tr))) as [a|e]; [|discriminate].
  destruct (ints_of decimal _) as [nums|e]; [|discriminate].
  simpl.
  destruct (match score_link tr with Some t => _ | None => _ end) as [sc|e]; [|discriminate].
  destruct (people_voted_of decimal lower (links tr)) as [pv|e]; [|discriminate].
  simpl. intros H; inversion H; subst; simpl.
  split; [reflexivity|]. split; [reflexivity|]. now exists nums.
Qed.

End ParserFacts.

(** C6, at the input [","].  C6 has integer and float extraction return a
    number or null on every string, also on one of separators only, and
    never raise.  On this string the integer pattern matches the bare
    separator, stripping leaves the empty string and [int] raises
    [ValueError]; float extraction returns null on it. *)
Theorem to_int_raises_on_separators :
  _to_int ascii_decimal (Some (lit ",")) = Raised ValueError /\
  _to_float ascii_decimal (Some (lit ",")) = Returned None.
Proof. split; reflexivity. Qed.

(** C7, at the input ["Tolkien, J.R.R. (1954)"].  C7 has integer
    extraction return the first substring that matches the integer pattern,
    separators stripped.  The first such substring here is the separator
    after the surname; nothing is left of it once stripped and
    [_to_int] raises instead of returning. *)
Theorem to_int_raises_on_first_match :
  re_search (_num_re ascii_decimal) (lit "Tolkien, J.R.R. (1954)")
    = Some (lit "Tolkien", lit ",", lit " J.R.R. (1954)") /\
  strip_commas (lit ",") = [] /\
  _to_int ascii_decimal (Some (lit "Tolkien, J.R.R. (1954)")) = Raised ValueError.
Proof. repeat split; reflexivity. Qed.

(** The three extraction examples of the specification. *)
Example extraction_examples :
  _to_float ascii_decimal (Some Samples.rating_text) = Returned (Some 4.28%Q) /\
  _to_int ascii_decimal (Some (lit "30,210 people voted")) = Returned (Some 30210) /\
  _to_int ascii_decimal None = Returned None.
Proof. repeat split; reflexivity. Qed.

(** C8.  For a row that [_parse_row] parsed: the integer tokens of its
    rating text are the successive first matches of the integer pattern,
    [num_ratings] is the largest of their values, null when there is no
    token; [avg_rating] is the value of the first match of the decimal
    pattern in the same text, null when there is none. *)
Theorem minirating_fields decimal lower tr row :
  _parse_row decimal lower tr = Returned row ->
  (exists groups nums,
      tokens (int_shape decimal) (mini_text tr) groups /\
      Forall2 (fun g n => py_int decimal (strip_commas g) = Returned n) groups nums /\
      is_max nums (num_ratings row)) /\
  match avg_rating row with
  | Some x => exists pre m post,
      first_match (float_shape decimal) (mini_text tr) pre m post /\
      py_float decimal m = Returned x
  | None => no_match (float_shape decimal) (mini_text tr)
  end.
Proof.
  intros H. apply _parse_row_returned in H as (_ & Hf & nums & Hn & Hmax).
  split.
  - exists (re_findall (_num_re decimal) (mini_text tr)), nums.
    split; [apply num_findall_tokens|]. split; [now apply ints_of_each|].
    rewrite Hmax. apply py_max_is_max.
  - now apply _to_float_first in Hf.
Qed.

Lemma minirating_fields_witness :
  _parse_row ascii_decimal ascii_lower Samples.dune = Returned Samples.dune_record /\
  ((exists groups nums,
      tokens (int_shape ascii_decimal) (mini_text Samples.dune) groups /\
      Forall2 (fun g n => py_int ascii_decimal (strip_commas g) = Returned n) groups nums /\
      is_max nums (Some 9117773)) /\
   exists pre m post,
      first_match (float_shape ascii_decimal) (mini_text Samples.dune) pre m post /\
      py_float ascii_decimal m = Returned 4.28%Q).
Proof.
  split; [reflexivity|].
  exact (minirating_fields ascii_decimal ascii_lower Samples.dune Samples.dune_record eq_refl).
Defined.

(** ** The loop over the rows of a page *)

Section RowLoop.

Variable decimal : char -> option N.
Variable lower : str -> str.
Variable num_books : Z.

Let parse := _parse_row decimal lower.

Lemma first_found_more rows tr b :
  first_found parse rows b -> first_found parse (rows ++ tr) b.
Proof.
  intros (pre & r & post & -> & Hr & Hpre).
  exists pre, r, (post ++ tr). split; [|now split].
  now rewrite <- app_assoc.
Qed.

Lemma collected_start : collected parse [] [] ∅.
Proof.
  split.
  - intros tr [].
  - intros b [].
  - intros t. split; [intros Hin; now apply not_elem_of_empty in Hin|].
    now intros (b & [] & _).
  - intros b [].
  - constructor.
Qed.

(** A row that parses and brings no new usable title. *)
Lemma collected_skip read bs sn tr row :
  collected parse read bs sn -> parse tr = Returned row ->
  (forall t, title row = Some t -> t <> [] -> t ∈ sn) ->
  collected parse (read ++ [tr]) bs sn.
Proof.
  intros [Hp Hf Hs Hu Hn] Hrow Hold. split; try assumption.
  - intros tr' Hin. apply in_app_or in Hin as [Hin|[<-|[]]]; [now apply Hp|].
    now exists row.
  - intros b Hb. now apply first_found_more, Hf.
Qed.

(** A row that parses and brings the new title [t]. *)
Lemma collected_add read bs sn tr row t :
  collected parse read bs sn -> parse tr = Returned row ->
  title row = Some t -> t <> [] -> t ∉ sn ->
  collected parse (read ++ [tr]) (bs ++ [row]) ({[ t ]} ∪ sn).
Proof.
  intros [Hp Hf Hs Hu Hn] Hrow Ht Hne Hnew. split.
  - intros tr' Hin. apply in_app_or in Hin as [Hin|[<-|[]]].
    + destruct (Hp tr' Hin) as (b & Hb & Hsn). exists b. split; [exact Hb|].
      intros t' Ht' Hne'. apply elem_of_union. right. now apply Hsn.
    + exists row. split; [exact Hrow|]. intros t' Ht' _.
      rewrite Ht in Ht'. inversion Ht'; subst.
      apply elem_of_union. left. now apply elem_of_singleton.
  - intros b Hin. apply in_app_or in Hin as [Hin|[<-|[]]].
    + now apply first_found_more, Hf.
    + exists read, tr, []. split; [reflexivity|]. split; [exact Hrow|].
      intros tr' Hin. destruct (Hp tr' Hin) as (b' & Hb' & Hsn).
      exists b'. split; [exact Hb'|]. intros E. rewrite Ht in E.
      apply Hnew. now apply Hsn.
  - intros t'. rewrite elem_of_union, elem_of_singleton, Hs. split.
    + intros [->|(b & Hb & Hbt)].
      * exists row. split; [apply in_or_app; right; now left|exact Ht].
      * exists b. split; [apply in_or_app; now left|exact Hbt].
    + intros (b & Hin & Hbt). apply in_app_or in Hin as [Hin|[<-|[]]].
      * right. now exists b.
      * left. rewrite Ht in Hbt. now inversion Hbt.
  - intros b Hin. apply in_app_or in Hin as [Hin|[<-|[]]]; [now apply Hu|].
    now exists t.
  - rewrite map_app. simpl. apply NoDup_app. split; [exact Hn|]. split.
    + intros x Hx Hx'. apply list_elem_of_In in Hx, Hx'.
      destruct Hx' as [<-|[]]. apply in_map_iff in Hx as (b & Hbt & Hb).
      apply Hnew, Hs. exists b. split; [exact Hb|]. now rewrite Hbt.
    + apply NoDup_singleton.
Qed.

Lemma len_app {A} (l k : list A) : len (l ++ k) = len l + len k.
Proof. unfold len. rewrite length_app. lia. Qed.

Lemma for_rows_collected rows : forall read bs sn found bs' sn' found' raised,
  collected parse read bs sn -> len bs < num_books ->
  for_rows decimal lower num_books rows bs sn found = (bs', sn', found', raised) ->
  exists rd rest new,
    rows = rd ++ rest /\ collected parse (read ++ rd) bs' sn' /\
    bs' = bs ++ new /\ found' = found + len new /\ len bs' <= num_books /\
    match raised with
    | Some e => exists tr rest', rest = tr :: rest' /\ parse tr = Raised e
    | None => rest = [] \/ len bs' = num_books
    end.
Proof.
  induction rows as [|tr rows IH]; intros read bs sn found bs' sn' found' raised Hc Hlt H.
  - inversion H; subst. exists [], [], []. rewrite !app_nil_r.
    split_and!; [reflexivity|assumption|reflexivity|unfold len; simpl; lia|lia|now left].
  - simpl in H. fold parse in H. destruct (parse tr) as [row|e] eqn:Hrow.
    2: { inversion H; subst. exists [], (tr :: rows), []. rewrite !app_nil_r.
         split_and!; [reflexivity|assumption|reflexivity|unfold len; simpl; lia|lia|].
         now exists tr, rows. }
    assert (Hskip : (forall t, title row = Some t -> t <> [] -> t ∈ sn) ->
                    for_rows decimal lower num_books rows bs sn found
                      = (bs', sn', found', raised) ->
                    exists rd rest new,
                      tr :: rows = rd ++ rest /\ collected parse (read ++ rd) bs' sn' /\
                      bs' = bs ++ new /\ found' = found + len new /\ len bs' <= num_books /\
                      match raised with
                      | Some e => exists tr rest', rest = tr :: rest' /\ parse tr = Raised e
                      | None => rest = [] \/ len bs' = num_books
                      end).
    { intros Hold H'.
      destruct (IH (read ++ [tr]) bs sn found bs' sn' found' raised
                  (collected_skip _ _ _ _ _ Hc Hrow Hold) Hlt H')
        as (rd & rest & new & -> & Hc' & Hrest).
      exists (tr :: rd), rest, new. split; [reflexivity|].
      rewrite <- app_assoc in Hc'. now split. }
    destruct (title row) as [t|] eqn:Ht; [|apply Hskip; [discriminate|exact H]].
    destruct (falsy t) eqn:Hf.
    { apply Hskip; [|exact H]. intros t' E. inversion E; subst. now destruct t'. }
    simpl in H. destruct (bool_decide (t ∈ sn)) eqn:Hin.
    { apply bool_decide_eq_true in Hin. apply Hskip; [|exact H].
      intros t' E. now inversion E; subst. }
    apply bool_decide_eq_false in Hin.
    assert (Hne : t <> []) by (now destruct t).
    pose proof (collected_add _ _ _ _ _ _ Hc Hrow Ht Hne Hin) as Hc1.
    assert (Hlen : len (bs ++ [row]) = len bs + 1) by (rewrite len_app; reflexivity).
    destruct (len (bs ++ [row]) >=? num_books) eqn:Hge.
    + inversion H; subst. exists [tr], rows, [row].
      split_and!; [reflexivity|assumption|reflexivity|reflexivity|lia|right; lia].
    + destruct (IH (read ++ [tr]) (bs ++ [row]) ({[ t ]} ∪ sn) (found + 1)
                  bs' sn' found' raised Hc1 ltac:(lia) H)
        as (rd & rest & new & -> & Hc' & -> & -> & Hle & Hr).
      exists (tr :: rd), rest, (row :: new). split; [reflexivity|].
      rewrite <- app_assoc in Hc'. split; [exact Hc'|].
      split; [now rewrite <- app_assoc|].
      split; [|now split].
      change (row :: new) with ([row] ++ new). rewrite (len_app [row] new).
      change (len [row]) with 1. lia.
Qed.

End RowLoop.

(** ** The loop over the pages *)

Lemma requests_app tr tr' : requests (tr ++ tr') = requests tr ++ requests tr'.
Proof.
  induction tr as [|e tr IH]; simpl; [reflexivity|].
  destruct e; simpl; now rewrite IH.
Qed.

Lemma pages_S k : pages (S k) = pages k ++ [Z.of_nat k + 1].
Proof.
  unfold pages. rewrite seq_S, map_app. simpl. do 2 f_equal. lia.
Qed.

Lemma pages_length k : List.length (pages k) = k.
Proof. unfold pages. now rewrite length_map, length_seq. Qed.

Lemma pages_range k p : In p (pages k) -> 1 <= p <= Z.of_nat k.
Proof.
  unfold pages. rewrite in_map_iff. intros (i & <- & Hi).
  apply in_seq in Hi. lia.
Qed.

Lemma pages_prefix k k' : (k <= k')%nat -> exists more, pages k' = pages k ++ more.
Proof.
  induction 1 as [|k' _ (more & IH)].
  - exists []. now rewrite app_nil_r.
  - exists (more ++ [Z.of_nat k' + 1]). now rewrite pages_S, IH, app_assoc.
Qed.

Section PageLoop.

Variable decimal : char -> option N.
Variable lower : str -> str.
Variable web : Z -> Response.
Variable num_books max_pages : Z.

Let parse := _parse_row decimal lower.
Let test := cond num_books max_pages.
Let body := turn decimal lower web num_books.
Let loop := while_loop decimal lower web num_books max_pages.

Lemma turn_next_page st st' : body st = (st', None) -> page st' = page st + 1.
Proof.
  unfold body, turn. simpl.
  destruct (web (page st)) as [|status rows]; [discriminate|].
  destruct (negb (status =? 200)); [discriminate|].
  destruct (for_rows _ _ _ _ _ _ _) as [[[bs sn] pf] [e|]]; [discriminate|].
  destruct ((pf =? 0) && (1 <? page st)); [discriminate|].
  intros H; inversion H; subst. reflexivity.
Qed.

(** The loop is left before the fuel runs out. *)
Lemma while_loop_terminates fuel st :
  (Z.to_nat (max_pages + 1 - page st) < fuel)%nat -> exists r, loop fuel st = Some r.
Proof.
  revert st. induction fuel as [|fuel IH]; intros st Hlt; [lia|].
  simpl. destruct (cond num_books max_pages st) eqn:Hc; [|now eexists].
  fold body. destruct (body st) as [st' [how|]] eqn:Hb; [now eexists|].
  apply turn_next_page in Hb. apply IH.
  unfold cond in Hc. apply andb_true_iff in Hc as [_ Hp]. apply Z.leb_le in Hp. lia.
Qed.

(** More fuel changes nothing. *)
Lemma while_loop_more fuel fuel' st r :
  loop fuel st = Some r -> (fuel <= fuel')%nat -> loop fuel' st = Some r.
Proof.
  revert fuel' st. induction fuel as [|fuel IH]; intros fuel' st H Hle; [discriminate|].
  destruct fuel' as [|fuel']; [lia|]. simpl in *.
  destruct (cond num_books max_pages st); [|exact H].
  destruct (turn decimal lower web num_books st) as [st' [how|]]; [exact H|].
  apply IH; [exact H|lia].
Qed.

(** An invariant of the turns holds when the loop is left. *)
Lemma while_loop_invariant (P : Crawl -> Prop) (Q : Crawl -> Exit -> Prop) :
  (forall st, P st -> test st = false -> Q st CondFalse) ->
  (forall st, P st -> test st = true ->
     match body st with
     | (st', Some how) => Q st' how
     | (st', None) => P st'
     end) ->
  forall fuel st st' how, P st -> loop fuel st = Some (st', how) -> Q st' how.
Proof.
  intros Hstop Hturn. induction fuel as [|fuel IH]; intros st st' how HP H; [discriminate|].
  simpl in H. destruct (cond num_books max_pages st) eqn:Hc.
  - specialize (Hturn st HP Hc). unfold body in Hturn.
    destruct (turn decimal lower web num_books st) as [st1 [how1|]].
    + now inversion H; subst.
    + now apply (IH st1).
  - inversion H; subst. now apply Hstop.
Qed.

Lemma at_head_start : at_head parse web num_books max_pages (start).
Proof.
  exists 0%nat. split; [reflexivity|]. exists [], [].
  split_and!; [lia|reflexivity|reflexivity|apply collected_start|unfold len; simpl; lia|now left].
Qed.

Lemma rows_of_page p rows : web p = Http 200 rows -> rows_of web p = rows.
Proof. unfold rows_of. now intros ->. Qed.

Lemma flat_map_pages_S k :
  flat_map (rows_of web) (pages (S k))
    = flat_map (rows_of web) (pages k) ++ rows_of web (Z.of_nat k + 1).
Proof. rewrite pages_S, flat_map_app. simpl. now rewrite app_nil_r. Qed.

Local Ltac req :=
  match goal with
  | H : pages _ = _ |- requests _ = _ =>
      rewrite H, !requests_app; cbn [requests app]; rewrite ?app_nil_r; reflexivity
  end.

Lemma turn_step st :
  at_head parse web num_books max_pages st -> test st = true ->
  match body st with
  | (st', Some how) => at_exit parse web num_books max_pages st' how
  | (st', None) => at_head parse web num_books max_pages st'
  end.
Proof.
  intros (k & Hpage & read & rest & Hk & Hreq & Hflat & Hc & Hlen & Hrest) Htest.
  unfold test, cond in Htest. apply andb_true_iff in Htest as [Hlt Hle].
  apply Z.ltb_lt in Hlt. apply Z.leb_le in Hle.
  destruct Hrest as [->|Hfull]; [|lia]. rewrite app_nil_r in Hflat.
  assert (Hk' : Z.of_nat (S k) <= Z.max 0 max_pages) by lia.
  assert (Hnext : pages (S k) = requests (out st) ++ [page st]).
  { now rewrite pages_S, Hreq, Hpage. }
  unfold body, turn. simpl.
  destruct (web (page st)) as [|status rows] eqn:Hweb.
  { (* the request raised *)
    exists (S k), read, []. cbn [books seen page out say].
    split_and!; try assumption; [req| |now left].
    rewrite flat_map_pages_S, Hflat, <- Hpage. unfold rows_of. now rewrite Hweb. }
  destruct (status =? 200) eqn:Hst; simpl.
  2: { (* not a 200 response *)
    exists (S k), read, []. cbn [books seen page out say].
    split_and!; try assumption; [req| |now left].
    rewrite flat_map_pages_S, Hflat, <- Hpage. unfold rows_of. now rewrite Hweb, Hst. }
  apply Z.eqb_eq in Hst. subst status.
  destruct (for_rows _ _ _ _ _ _ _) as [[[bs sn] pf] raised] eqn:Hrows.
  destruct (for_rows_collected decimal lower num_books rows read _ _ _ _ _ _ _ Hc Hlt Hrows)
    as (rd & rs & new & -> & Hc' & -> & -> & Hle' & Hr).
  assert (Hflat' : flat_map (rows_of web) (pages (S k)) = (read ++ rd) ++ rs).
  { rewrite flat_map_pages_S, Hflat, <- Hpage, (rows_of_page _ _ Hweb).
    now rewrite app_assoc. }
  destruct raised as [e|].
  { exists (S k), (read ++ rd), rs. cbn [books seen page out say].
    split_and!; try assumption; [req|lia|now right]. }
  destruct ((0 + len new =? 0) && (1 <? page st)).
  - exists (S k), (read ++ rd), rs. cbn [books seen page out say].
    split_and!; try assumption; [req|lia].
  - exists (S k). split; [cbn [page]; lia|].
    exists (read ++ rd), rs. cbn [books seen page out say].
    split_and!; try assumption; [req|lia].
Qed.

Lemma at_exit_stop st :
  at_head parse web num_books max_pages st -> test st = false ->
  at_exit parse web num_books max_pages st CondFalse.
Proof. intros (k & _ & H) _. now exists k. Qed.

(** The crawl loop ends, and ends in a state as [at_exit] describes. *)
Lemma while_loop_exit :
  exists st how, loop (S (Z.to_nat max_pages)) start = Some (st, how) /\
                 at_exit parse web num_books max_pages st how.
Proof.
  destruct (while_loop_terminates (S (Z.to_nat max_pages)) start) as [[st how] H].
  { simpl. lia. }
  exists st, how. split; [exact H|].
  eapply while_loop_invariant; [apply at_exit_stop|apply turn_step|apply at_head_start|exact H].
Qed.

End PageLoop.

(** ** After the loop *)

Lemma head_firstn {A} n (l : list A) : 0 <= n -> head n l = firstn (Z.to_nat n) l.
Proof. intros H. unfold head. apply Z.leb_le in H. now rewrite H. Qed.

Lemma head_all {A} n (l : list A) : len l <= n -> head n l = l.
Proof.
  intros H. unfold len in H. rewrite head_firstn by lia. apply firstn_all2. lia.
Qed.

Lemma drop_duplicates_from_nodup keys l :
  NoDup (List.map title l) -> (forall b, In b l -> title b ∉ keys) ->
  drop_duplicates_from keys l = l.
Proof.
  revert keys. induction l as [|b l IH]; intros keys Hnd Hkeys; simpl; [reflexivity|].
  simpl in Hnd. apply NoDup_cons in Hnd as [Hb Hnd].
  rewrite bool_decide_eq_false_2 by (apply Hkeys; now left).
  f_equal. apply IH; [exact Hnd|].
  intros b' Hin. rewrite elem_of_cons. intros [E|Hk].
  - apply Hb. rewrite <- E. apply list_elem_of_In. now apply in_map.
  - apply (Hkeys b'); [now right|exact Hk].
Qed.

Lemma drop_duplicates_nodup l : NoDup (List.map title l) -> drop_duplicates l = l.
Proof.
  intros H. apply drop_duplicates_from_nodup; [exact H|].
  intros b _ Hin. now apply elem_of_nil in Hin.
Qed.

Lemma head_prefix {A} n (l : list A) : exists j, head n l = firstn j l.
Proof. unfold head. destruct (0 <=? n); now eexists. Qed.

Lemma firstn_in {A} j (l : list A) x : In x (firstn j l) -> In x l.
Proof.
  rewrite <- (firstn_skipn j l) at 2. intros Hin. apply in_or_app. now left.
Qed.

Lemma firstn_nodup_titles j l :
  NoDup (List.map title l) -> NoDup (List.map title (firstn j l)).
Proof.
  rewrite <- (firstn_skipn j l) at 1. rewrite map_app. intros H.
  now apply NoDup_app in H as [H _].
Qed.

Lemma mock_titles :
  Forall (fun b => usable (title b)) mock_books /\ NoDup (List.map title mock_books).
Proof.
  split.
  - repeat constructor; eexists; (split; [reflexivity|discriminate]).
  - simpl. apply NoDup_cons. split; [|apply NoDup_singleton].
    rewrite list_elem_of_singleton. discriminate.
Qed.

Lemma drop_duplicates_mock j :
  drop_duplicates (firstn j mock_books) = firstn j mock_books.
Proof. apply drop_duplicates_nodup, firstn_nodup_titles, mock_titles. Qed.

(** The fallback records after the de-duplication and the clipping. *)
Lemma fallback_clipped n :
  0 <= n ->
  head n (drop_duplicates (head n mock_books)) = firstn (Z.to_nat n) mock_books /\
  len (firstn (Z.to_nat n) mock_books) = Z.min 2 n.
Proof.
  intros H. rewrite !head_firstn by exact H. rewrite drop_duplicates_mock.
  rewrite firstn_firstn, Nat.min_id. split; [reflexivity|].
  unfold len. rewrite length_firstn. simpl. lia.
Qed.

Lemma fallback_synthetic n b :
  In b (head n (drop_duplicates (head n mock_books))) -> In b mock_books.
Proof.
  destruct (head_prefix n mock_books) as [j ->]. rewrite drop_duplicates_mock.
  destruct (head_prefix n (firstn j mock_books)) as [i ->].
  intros Hin. now apply firstn_in, firstn_in in Hin.
Qed.

Lemma fallback_titles n :
  Forall (fun b => usable (title b)) (head n (drop_duplicates (head n mock_books))) /\
  NoDup (List.map title (head n (drop_duplicates (head n mock_books)))).
Proof.
  destruct mock_titles as [Hu Hn]. split.
  - apply List.Forall_forall. intros b Hin. apply fallback_synthetic in Hin.
    revert b Hin. now apply List.Forall_forall.
  - destruct (head_prefix n mock_books) as [j ->]. rewrite drop_duplicates_mock.
    destruct (head_prefix n (firstn j mock_books)) as [i ->].
    now apply firstn_nodup_titles, firstn_nodup_titles.
Qed.

Section Finish.

Variable num_books : Z.

Lemma finish_collected st how :
  books st <> [] -> NoDup (List.map title (books st)) ->
  len (books st) <= Z.max 0 num_books ->
  book_data (finish num_books st how) = books st.
Proof.
  intros Hne Hnd Hlen. unfold finish.
  destruct (books st) as [|b bs] eqn:E; [congruence|]. cbn [book_data].
  rewrite drop_duplicates_nodup by exact Hnd.
  apply head_all. unfold len in *. simpl in *. lia.
Qed.

Lemma finish_fallback st how :
  books st = [] ->
  book_data (finish num_books st how)
    = head num_books (drop_duplicates (head num_books mock_books)) /\
  In WarnFallback (trace (finish num_books st how)).
Proof.
  intros E. unfold finish. rewrite E. cbn [book_data trace]. split; [reflexivity|].
  apply in_or_app. left. apply in_or_app. right. now left.
Qed.

Lemma finish_requests st how :
  requests (trace (finish num_books st how)) = requests (out st).
Proof.
  unfold finish.
  destruct (books st); destruct how; cbn [trace];
    rewrite !requests_app; cbn [requests]; now rewrite ?app_nil_r.
Qed.

Lemma finish_exit st how : exit (finish num_books st how) = how.
Proof. unfold finish. now destruct (books st). Qed.

End Finish.

(** ** The crawl task as a whole *)

Section Crawl.

Variable decimal : char -> option N.
Variable lower : str -> str.
Variable web : Z -> Response.
Variable num_books max_pages : Z.

Let parse := _parse_row decimal lower.

Lemma fetch_exit :
  exists st how,
    while_loop decimal lower web num_books max_pages (S (Z.to_nat max_pages)) start
      = Some (st, how) /\
    at_exit parse web num_books max_pages st how /\
    fetch_goodreads_books decimal lower web num_books max_pages
      = Some (finish num_books st how).
Proof.
  destruct (while_loop_exit decimal lower web num_books max_pages) as (st & how & H & Hx).
  exists st, how. split; [exact H|]. split; [exact Hx|].
  unfold fetch_goodreads_books. now rewrite H.
Qed.

(** The rows read before the loop was left are the first rows of the
    pages within [max_pages]. *)
Lemma read_prefix (k : nat) read rest :
  Z.of_nat k <= Z.max 0 max_pages ->
  flat_map (rows_of web) (pages k) = read ++ rest ->
  exists more, discovery web max_pages = read ++ more.
Proof.
  intros Hk Hflat. destruct (pages_prefix k (Z.to_nat max_pages)) as [more Hmore]; [lia|].
  exists (rest ++ flat_map (rows_of web) more).
  unfold discovery. now rewrite Hmore, flat_map_app, Hflat, app_assoc.
Qed.

End Crawl.

(** C2.  With [max_pages > 0] the crawl loop is left, within the
    [max_pages + 1] tests of its condition the model allows; the pages it
    requested, one per turn, are the pages [1 .. k] for some [k <= max_pages]:
    at most [max_pages] turns, and no page beyond [max_pages]. *)
Theorem crawl_terminates decimal lower web num_books max_pages :
  0 < max_pages ->
  exists run,
    fetch_goodreads_books decimal lower web num_books max_pages = Some run /\
    (exists k : nat, requests (trace run) = pages k /\ Z.of_nat k <= max_pages) /\
    len (requests (trace run)) <= max_pages /\
    Forall (fun p => 1 <= p <= max_pages) (requests (trace run)).
Proof.
  intros Hpos.
  destruct (fetch_exit decimal lower web num_books max_pages)
    as (st & how & _ & (k & read & rest & Hk & Hreq & _) & Hrun).
  exists (finish num_books st how). split; [exact Hrun|].
  rewrite finish_requests, Hreq.
  split; [exists k; split; [reflexivity|lia]|].
  split; [unfold len; rewrite pages_length; lia|].
  apply List.Forall_forall. intros p Hp. apply pages_range in Hp. lia.
Qed.

Lemma crawl_terminates_witness :
  0 < 2 /\
  exists run,
    fetch_goodreads_books ascii_decimal ascii_lower Samples.two_page_web 3 2 = Some run /\
    (exists k : nat, requests (trace run) = pages k /\ Z.of_nat k <= 2) /\
    len (requests (trace run)) <= 2 /\
    Forall (fun p => 1 <= p <= 2) (requests (trace run)).
Proof.
  split; [reflexivity|].
  exact (crawl_terminates ascii_decimal ascii_lower Samples.two_page_web 3 2 eq_refl).
Defined.

(** C3.  Every crawl returns, and in the records it hands on every title is
    present and non-empty and no two titles are equal; each record is what
    the first row with its title, in page and row order, parsed to, or,
    when the fallback was substituted, one of the mock records. *)
Theorem final_records decimal lower web num_books max_pages :
  exists run,
    fetch_goodreads_books decimal lower web num_books max_pages = Some run /\
    Forall (fun b => usable (title b)) (book_data run) /\
    NoDup (List.map title (book_data run)) /\
    forall b, In b (book_data run) ->
      first_found (_parse_row decimal lower) (discovery web max_pages) b \/
      (In WarnFallback (trace run) /\ In b mock_books).
Proof.
  destruct (fetch_exit decimal lower web num_books max_pages)
    as (st & how & _ & (k & read & rest & Hk & _ & Hflat & Hc & Hlen & _) & Hrun).
  exists (finish num_books st how). split; [exact Hrun|].
  assert (Hcase : books st = [] \/ books st <> []).
  { destruct (books st); [now left|now right]. }
  destruct Hcase as [E|Hne].
  - destruct (finish_fallback num_books st how E) as [-> Hwarn].
    destruct (fallback_titles num_books) as [Hu Hn].
    split; [exact Hu|]. split; [exact Hn|].
    intros b Hin. right. split; [exact Hwarn|]. now apply fallback_synthetic in Hin.
  - rewrite (finish_collected num_books st how Hne (col_nodup _ _ _ _ Hc) Hlen).
    split; [apply List.Forall_forall, (col_usable _ _ _ _ Hc)|].
    split; [apply (col_nodup _ _ _ _ Hc)|].
    intros b Hin. left.
    destruct (read_prefix web max_pages k read rest Hk Hflat) as [more ->].
    now apply first_found_more, (col_first _ _ _ _ Hc).
Qed.

(** C10.  For a target that is not negative: whenever the loop is left, however
    it is left, with no record collected, the crawl returns the mock records
    "Mock Book A" and "Mock Book B" cut to [num_books], that is
    [min 2 num_books] records, and prints the fallback warning. *)
Theorem fallback_output decimal lower web num_books max_pages st how :
  0 <= num_books ->
  while_loop decimal lower web num_books max_pages (S (Z.to_nat max_pages)) start
    = Some (st, how) ->
  books st = [] ->
  exists run,
    fetch_goodreads_books decimal lower web num_books max_pages = Some run /\
    exit run = how /\
    book_data run = firstn (Z.to_nat num_books) mock_books /\
    len (book_data run) = Z.min 2 num_books /\
    In WarnFallback (trace run).
Proof.
  intros Hnb Hloop Hnone. exists (finish num_books st how).
  unfold fetch_goodreads_books. rewrite Hloop. split; [reflexivity|].
  split; [apply finish_exit|].
  destruct (finish_fallback num_books st how Hnone) as [-> Hwarn].
  destruct (fallback_clipped num_books Hnb) as [-> Hlen].
  now split_and!.
Qed.

Lemma fallback_output_witness :
  0 <= 5 /\
  exists run,
    fetch_goodreads_books ascii_decimal ascii_lower Samples.broken_web 5 3 = Some run /\
    exit run = Except ValueError /\
    book_data run = firstn (Z.to_nat 5) mock_books /\
    len (book_data run) = Z.min 2 5 /\
    In WarnFallback (trace run).
Proof.
  split; [discriminate|].
  exact (fallback_output ascii_decimal ascii_lower Samples.broken_web 5 3
           {| books := []; seen := ∅; page := 1; out := [Get 1] |} (Except ValueError)
           ltac:(discriminate) eq_refl eq_refl).
Defined.

(** One turn that read a page without an exception and found no new
    record: on a page after the first the loop is left by the [break] of
    line 162; on the first page the loop is not left and the page counter
    moves on. *)
Lemma no_new_rows_turn decimal lower web num_books st rows bs sn :
  web (page st) = Http 200 rows ->
  for_rows decimal lower num_books rows (books st) (seen st) 0 = (bs, sn, 0, None) ->
  (1 < page st ->
     snd (turn decimal lower web num_books st) = Some BreakNoNewRows) /\
  (page st <= 1 ->
     snd (turn decimal lower web num_books st) = None /\
     page (fst (turn decimal lower web num_books st)) = page st + 1 /\
     books (fst (turn decimal lower web num_books st)) = bs).
Proof.
  intros Hweb Hrows. unfold turn. cbn [say page books seen out].
  rewrite Hweb. cbn [negb Z.eqb Pos.eqb]. rewrite Hrows.
  cbn [Z.eqb andb page].
  split; intros Hp.
  - apply Z.ltb_lt in Hp. now rewrite Hp.
  - assert (E : (1 <? page st) = false) by (apply Z.ltb_ge; lia). now rewrite E.
Qed.

(** The rows loop only adds records, and counts the ones it adds. *)
Lemma for_rows_found decimal lower num_books rows :
  forall bs sn found bs' sn' found' raised,
    for_rows decimal lower num_books rows bs sn found = (bs', sn', found', raised) ->
    exists new, bs' = bs ++ new /\ found' = found + len new.
Proof.
  induction rows as [|tr rows IH]; intros bs sn found bs' sn' found' raised H.
  { injection H as <- <- <- <-. exists []. rewrite app_nil_r. unfold len. simpl.
    split; [reflexivity|lia]. }
  assert (Hnone : exists new, bs = bs ++ new /\ found = found + len new).
  { exists []. rewrite app_nil_r. unfold len. simpl. split; [reflexivity|lia]. }
  simpl in H. destruct (_parse_row decimal lower tr) as [row|e0].
  2: { now injection H as <- <- <- <-. }
  destruct (title row) as [t|]; [|now apply IH in H].
  destruct (falsy t || bool_decide (t ∈ sn)); [now apply IH in H|].
  assert (Hone : len [row] = 1) by reflexivity.
  destruct (len (bs ++ [row]) >=? num_books).
  - injection H as <- <- <- <-. exists [row]. now rewrite Hone.
  - apply IH in H as (new & -> & ->). exists (row :: new).
    rewrite <- app_assoc. split; [reflexivity|].
    change (row :: new) with ([row] ++ new). rewrite (len_app [row] new). lia.
Qed.

Section EmptyPages.

Variable decimal : char -> option N.
Variable lower : str -> str.
Variable web : Z -> Response.
Variable num_books max_pages : Z.

Local Ltac pages_sent H :=
  cbn [say out page books seen]; rewrite H, !requests_app;
  cbn [requests app]; rewrite ?app_nil_r; reflexivity.

Local Ltac where_printed H :=
  cbn [say out page books seen] in H;
  repeat match type of H with
         | In _ (_ ++ _) => apply in_app_or in H as [H|H]
         | In _ [_] => destruct H as [H|[]]
         end.

(** While the loop turns, only the first page can have been read without a
    new row; and after such a first page the second page is next, with the
    target still unmet. *)
Lemma empty_page_at_exit fuel st how :
  while_loop decimal lower web num_books max_pages fuel start = Some (st, how) ->
  exists k : nat,
    requests (out st) = pages k /\
    (forall p t, In (InfoPage p 0 t) (out st) -> 1 < p ->
       how = BreakNoNewRows /\ p = Z.of_nat k) /\
    (forall t, In (InfoPage 1 0 t) (out st) -> 2 <= max_pages -> (2 <= k)%nat).
Proof.
  apply (while_loop_invariant decimal lower web num_books max_pages
           (fun st => exists k : nat,
              page st = Z.of_nat k + 1 /\ requests (out st) = pages k /\
              (forall p t, In (InfoPage p 0 t) (out st) -> p = 1) /\
              (forall t, In (InfoPage 1 0 t) (out st) ->
                 (2 <= k)%nat \/ (k = 1%nat /\ len (books st) < num_books)))
           (fun st how => exists k : nat,
              requests (out st) = pages k /\
              (forall p t, In (InfoPage p 0 t) (out st) -> 1 < p ->
                 how = BreakNoNewRows /\ p = Z.of_nat k) /\
              (forall t, In (InfoPage 1 0 t) (out st) -> 2 <= max_pages -> (2 <= k)%nat))).
  - (* the condition is false *)
    intros s (k & Hpage & Hreq & Hzero & Hfirst) Hc. exists k.
    split; [exact Hreq|]. split.
    + intros p t Hin Hp. apply Hzero in Hin. lia.
    + intros t Hin Hmax. destruct (Hfirst t Hin) as [Hk|[Hk Hlt]]; [exact Hk|].
      exfalso. unfold cond in Hc. apply andb_false_iff in Hc as [Hc|Hc].
      * apply Z.ltb_ge in Hc. lia.
      * apply Z.leb_gt in Hc. lia.
  - (* one turn *)
    intros s (k & Hpage & Hreq & Hzero & Hfirst) Hc.
    unfold cond in Hc. apply andb_true_iff in Hc as [Hlt Hle].
    apply Z.ltb_lt in Hlt. apply Z.leb_le in Hle.
    assert (Hnext : pages (S k) = requests (out s) ++ [page s]).
    { now rewrite pages_S, Hreq, Hpage. }
    assert (Hold : forall t, In (InfoPage 1 0 t) (out s) -> (2 <= S k)%nat).
    { intros t Hin. destruct (Hfirst t Hin) as [Hk|[Hk _]]; lia. }
    unfold turn. cbn [say page books seen out].
    destruct (web (page s)) as [|status rows] eqn:Hweb.
    { exists (S k). split; [pages_sent Hnext|]. split.
      - intros p t Hin Hp. where_printed Hin; [apply Hzero in Hin; lia|discriminate].
      - intros t Hin _. where_printed Hin; [now apply (Hold t)|discriminate]. }
    destruct (negb (status =? 200)).
    { exists (S k). split; [pages_sent Hnext|]. split.
      - intros p t Hin Hp.
        where_printed Hin; [apply Hzero in Hin; lia|discriminate|discriminate].
      - intros t Hin _. where_printed Hin; [now apply (Hold t)|discriminate|discriminate]. }
    destruct (for_rows _ _ _ _ _ _ _) as [[[bs sn] pf] raised] eqn:Hrows.
    destruct (for_rows_found _ _ _ _ _ _ _ _ _ _ _ Hrows) as (new & -> & ->).
    destruct raised as [e|].
    { exists (S k). split; [pages_sent Hnext|]. split.
      - intros p t Hin Hp. where_printed Hin; [apply Hzero in Hin; lia|discriminate].
      - intros t Hin _. where_printed Hin; [now apply (Hold t)|discriminate]. }
    destruct ((0 + len new =? 0) && (1 <? page s)) eqn:Hbrk.
    + apply andb_true_iff in Hbrk as [_ Hp1]. apply Z.ltb_lt in Hp1.
      exists (S k). split; [pages_sent Hnext|]. split.
      * intros p t Hin Hp. where_printed Hin;
          [apply Hzero in Hin; lia|discriminate| |discriminate].
        injection Hin as <- _ _. split; [reflexivity|lia].
      * intros t Hin _. where_printed Hin;
          [now apply (Hold t)|discriminate| |discriminate].
        injection Hin as Hp _ _. lia.
    + exists (S k). cbn [page out books]. split; [lia|]. split; [pages_sent Hnext|]. split.
      * intros p t Hin. where_printed Hin; [now apply (Hzero p t)|discriminate|].
        injection Hin as <- Hpf _. rewrite Hpf in Hbrk. cbn [Z.eqb andb] in Hbrk.
        apply Z.ltb_ge in Hbrk. lia.
      * intros t Hin. where_printed Hin; [left; now apply (Hold t)|discriminate|].
        injection Hin as Hp Hpf _. right. split; [lia|].
        assert (Hnew : new = []).
        { destruct new; [reflexivity|]. unfold len in Hpf. simpl in Hpf. lia. }
        subst new. now rewrite app_nil_r.
  - exists 0%nat. split; [reflexivity|]. split; [reflexivity|].
    split; intros; contradiction.
Qed.

End EmptyPages.

Lemma finish_printed num_books st how p f t :
  In (InfoPage p f t) (trace (finish num_books st how)) -> In (InfoPage p f t) (out st).
Proof.
  unfold finish. intros H.
  assert (Hout : In (InfoPage p f t) (match how with
                                      | Except e => out st ++ [ErrorException e]
                                      | _ => out st
                                      end) -> In (InfoPage p f t) (out st)).
  { destruct how; try (intros H0; exact H0).
    intros H0. apply in_app_or in H0 as [H0|[H0|[]]]; [exact H0|discriminate]. }
  destruct (books st); cbn [trace] in H.
  - apply in_app_or in H as [H|[H|[]]]; [|discriminate].
    apply in_app_or in H as [H|[H|[]]]; [|discriminate]. now apply Hout.
  - apply in_app_or in H as [H|[H|[]]]; [|discriminate]. now apply Hout.
Qed.

(** C9, as the code has it.  Every crawl ends, and in it: when a page after
    the first was read and brought no new record (the line printed for it
    reports 0 new rows), the loop was left there by the [break] of line 162
    and that page is the last one requested; when the first page was read
    and brought no new record, the loop was not left there: with
    [max_pages >= 2] the condition held again and page 2 was requested. *)
Theorem empty_page_rule decimal lower web num_books max_pages :
  exists run,
    fetch_goodreads_books decimal lower web num_books max_pages = Some run /\
    (forall p total, In (InfoPage p 0 total) (trace run) -> 1 < p ->
       exit run = BreakNoNewRows /\ requests (trace run) = pages (Z.to_nat p)) /\
    (forall total, In (InfoPage 1 0 total) (trace run) -> 2 <= max_pages ->
       In 2 (requests (trace run))).
Proof.
  destruct (fetch_exit decimal lower web num_books max_pages) as (st & how & Hloop & _ & Hrun).
  destruct (empty_page_at_exit decimal lower web num_books max_pages _ _ _ Hloop)
    as (k & Hreq & Hstop & Hgo).
  exists (finish num_books st how). split; [exact Hrun|].
  rewrite finish_requests, finish_exit, Hreq. split.
  - intros p total Hin Hp. apply finish_printed in Hin.
    destruct (Hstop p total Hin Hp) as [-> ->]. now rewrite Nat2Z.id.
  - intros total Hin Hmax. apply finish_printed in Hin.
    specialize (Hgo total Hin Hmax). unfold pages. apply in_map_iff.
    exists 2%nat. split; [reflexivity|]. apply in_seq. lia.
Qed.

(** On [late_web] both halves apply: page 1 is read without a new row and
    page 2 is requested; page 3 is read without a new row and ends the
    crawl. *)
Lemma empty_page_rule_witness :
  exists run,
    fetch_goodreads_books ascii_decimal ascii_lower Samples.late_web 5 3 = Some run /\
    In (InfoPage 1 0 0) (trace run) /\ In 2 (requests (trace run)) /\
    In (InfoPage 3 0 2) (trace run) /\
    exit run = BreakNoNewRows /\ requests (trace run) = pages 3.
Proof.
  destruct (empty_page_rule ascii_decimal ascii_lower Samples.late_web 5 3)
    as (run & Hrun & Hstop & Hgo).
  exists run. split; [exact Hrun|].
  assert (Htrace : trace run = [ Get 1; InfoPage 1 0 0; Get 2; InfoPage 2 2 2;
                                 Get 3; InfoPage 3 0 2; InfoNoNewRows; InfoPushed 2 ]).
  { vm_compute in Hrun. injection Hrun as <-. reflexivity. }
  assert (H1 : In (InfoPage 1 0 0) (trace run)) by (rewrite Htrace; simpl; tauto).
  assert (H3 : In (InfoPage 3 0 2) (trace run)) by (rewrite Htrace; simpl; tauto).
  split; [exact H1|]. split; [exact (Hgo 0 H1 ltac:(discriminate))|].
  split; [exact H3|]. exact (Hstop 3 2 H3 eq_refl).
Defined.

(** C9 as stated fails on a source whose first page has no rows: after the
    first page brought nothing new the loop goes on, and requests pages 2
    and 3. *)
Lemma empty_first_page_goes_on :
  option_map trace (fetch_goodreads_books ascii_decimal ascii_lower Samples.late_web 5 3)
    = Some [ Get 1; InfoPage 1 0 0; Get 2; InfoPage 2 2 2;
             Get 3; InfoPage 3 0 2; InfoNoNewRows; InfoPushed 2 ].
Proof. reflexivity. Qed.

(** ** The DAG *)

Lemma accepted_mock j :
  forallb accepted (firstn j mock_books) && negb (frame_nan (firstn j mock_books)) = true.
Proof.
  destruct j as [|[|j]]; [reflexivity|reflexivity|].
  now rewrite (firstn_all2 (n := S (S j)) mock_books) by (simpl; lia).
Qed.

(** On a barren source the crawl collects nothing. *)
Lemma barren_collects_nothing decimal lower web num_books max_pages st how :
  barren web max_pages ->
  at_exit (_parse_row decimal lower) web num_books max_pages st how ->
  books st = [].
Proof.
  intros Hbar (k & read & rest & Hk & _ & Hflat & Hc & _).
  destruct (books st) as [|b bs] eqn:E; [reflexivity|]. exfalso.
  assert (Hb : In b (b :: bs)) by now left.
  destruct (col_first _ _ _ _ Hc b Hb) as (pre & tr & post & -> & Htr & _).
  pose proof (col_usable _ _ _ _ Hc b Hb) as Hu.
  apply _parse_row_returned in Htr as (Ht & _). rewrite Ht in Hu.
  assert (Hin : In tr (flat_map (rows_of web) (pages k))).
  { rewrite Hflat. apply in_or_app. left. apply in_or_app. right. now left. }
  apply in_flat_map in Hin as (p & Hp & Hin). apply pages_range in Hp.
  apply (Hbar p tr); [lia|exact Hin|exact Hu].
Qed.

(** A run of the DAG whose crawl collected nothing. *)
Lemma run_dag_fallback decimal lower web num_books max_pages db st how :
  0 < num_books ->
  while_loop decimal lower web num_books max_pages (S (Z.to_nat max_pages)) start
    = Some (st, how) ->
  books st = [] ->
  exists run,
    run_dag decimal lower web num_books max_pages db = Some run /\
    exit (fetched run) = how /\
    failure run = None /\
    book_data (fetched run) = firstn (Z.to_nat num_books) mock_books /\
    book_data (fetched run) <> [] /\
    In WarnFallback (trace (fetched run)) /\
    store run = Some (book_data (fetched run)).
Proof.
  intros Hpos Hloop Hnone.
  assert (Hrun : fetch_goodreads_books decimal lower web num_books max_pages
                 = Some (finish num_books st how)).
  { unfold fetch_goodreads_books. now rewrite Hloop. }
  destruct (finish_fallback num_books st how Hnone) as [Hdata Hwarn].
  destruct (fallback_clipped num_books ltac:(lia)) as [Hclip _].
  rewrite Hclip in Hdata.
  assert (Hne : firstn (Z.to_nat num_books) mock_books <> []).
  { destruct (Z.to_nat num_books) eqn:E; [lia|discriminate]. }
  unfold run_dag. rewrite Hrun.
  cbn [create_table_task drop_table_if_exists create_table_if_not_exists].
  unfold insert_goodreads_into_postgres. rewrite Hdata, accepted_mock.
  destruct (firstn (Z.to_nat num_books) mock_books) as [|b l] eqn:E; [congruence|].
  eexists. split; [reflexivity|]. cbn [failure fetched store app].
  rewrite Hdata, finish_exit. now split_and!.
Qed.

Lemma run_dag_barren decimal lower web num_books max_pages db :
  barren web max_pages -> 0 < num_books ->
  exists run,
    run_dag decimal lower web num_books max_pages db = Some run /\
    failure run = None /\
    book_data (fetched run) = firstn (Z.to_nat num_books) mock_books /\
    book_data (fetched run) <> [] /\
    In WarnFallback (trace (fetched run)) /\
    store run = Some (book_data (fetched run)).
Proof.
  intros Hbar Hpos.
  destruct (fetch_exit decimal lower web num_books max_pages)
    as (st & how & Hloop & Hx & _).
  pose proof (barren_collects_nothing _ _ _ _ _ _ _ Hbar Hx) as Hnone.
  destruct (run_dag_fallback decimal lower web num_books max_pages db st how
              Hpos Hloop Hnone) as (run & Hrun & _ & Hrest).
  now exists run.
Qed.

(** C4, as the code has it.  For a positive target, whenever the loop is
    left with no record collected, however it is left (every page read had
    no usable row, a request failed, a page answered with an error status, a
    row raised before any record was kept), the DAG run succeeds: the crawl
    prints the fallback warning and hands on the mock records cut to the
    target, a non-empty set, and the table holds exactly these afterwards.
    Nothing the task takes turns the substitution off. *)
Theorem fallback_on_empty_crawl decimal lower web num_books max_pages db st how :
  0 < num_books ->
  while_loop decimal lower web num_books max_pages (S (Z.to_nat max_pages)) start
    = Some (st, how) ->
  books st = [] ->
  exists run,
    run_dag decimal lower web num_books max_pages db = Some run /\
    exit (fetched run) = how /\
    failure run = None /\
    book_data (fetched run) = firstn (Z.to_nat num_books) mock_books /\
    book_data (fetched run) <> [] /\
    In WarnFallback (trace (fetched run)) /\
    store run = Some (book_data (fetched run)).
Proof. apply run_dag_fallback. Qed.

Lemma fallback_on_empty_crawl_witness :
  0 < 5 /\
  exists run,
    run_dag ascii_decimal ascii_lower Samples.broken_web 5 3 None = Some run /\
    exit (fetched run) = Except ValueError /\
    failure run = None /\
    book_data (fetched run) = firstn (Z.to_nat 5) mock_books /\
    book_data (fetched run) <> [] /\
    In WarnFallback (trace (fetched run)) /\
    store run = Some (book_data (fetched run)).
Proof.
  split; [reflexivity|].
  exact (fallback_on_empty_crawl ascii_decimal ascii_lower Samples.broken_web 5 3 None
           {| books := []; seen := ∅; page := 1; out := [Get 1] |} (Except ValueError)
           eq_refl eq_refl eq_refl).
Defined.

(** The same on a source none of whose rows has a usable title: such a
    source leaves the loop with nothing collected. *)
Lemma fallback_on_barren_source decimal lower web num_books max_pages db :
  barren web max_pages -> 0 < num_books ->
  exists run,
    run_dag decimal lower web num_books max_pages db = Some run /\
    failure run = None /\
    book_data (fetched run) = firstn (Z.to_nat num_books) mock_books /\
    book_data (fetched run) <> [] /\
    In WarnFallback (trace (fetched run)) /\
    store run = Some (book_data (fetched run)).
Proof. apply run_dag_barren. Qed.

Lemma empty_web_barren max_pages : barren Samples.empty_web max_pages.
Proof. intros p tr _ []. Qed.

(** C4 as stated fails: on the source that answers every request with a
    page without rows, no target, page limit or store makes the run fail or
    hand on an empty record set. *)
Lemma fallback_cannot_be_disabled :
  ~ exists num_books max_pages db run,
      0 < num_books /\
      run_dag ascii_decimal ascii_lower Samples.empty_web num_books max_pages db = Some run /\
      (failure run <> None \/ book_data (fetched run) = []).
Proof.
  intros (num_books & max_pages & db & run & Hpos & Hrun & Hbad).
  destruct (run_dag_barren ascii_decimal ascii_lower Samples.empty_web num_books max_pages db
              (empty_web_barren max_pages) Hpos)
    as (run' & Hrun' & Hok & _ & Hne & _).
  rewrite Hrun in Hrun'. inversion Hrun'; subst run'.
  destruct Hbad as [Hbad|Hbad]; [now apply Hbad|now apply Hne].
Qed.

(** C5, as the code has it.  The insert task appends: when it succeeds the
    table holds the rows it held, in their order, followed by the new ones.
    A run of the DAG drops the table before it inserts: afterwards the table
    holds the records of this run and no other, or no row when the insert
    failed, whatever it held before. *)
Theorem load_policy :
  (forall data rows db',
      insert_goodreads_into_postgres data (Some rows) = Returned db' ->
      db' = Some (rows ++ data)) /\
  (forall decimal lower web num_books max_pages db run,
      run_dag decimal lower web num_books max_pages db = Some run ->
      store run = match failure run with
                  | None => Some (book_data (fetched run))
                  | Some _ => Some []
                  end).
Proof.
  split.
  - intros data rows db'. unfold insert_goodreads_into_postgres.
    destruct data as [|b data]; [discriminate|].
    destruct (forallb accepted (b :: data) && negb (frame_nan (b :: data))); [|discriminate].
    now intros H; inversion H.
  - intros decimal lower web num_books max_pages db run. unfold run_dag.
    destruct (fetch_goodreads_books _ _ _ _ _) as [r|]; [|discriminate].
    cbn [create_table_task drop_table_if_exists create_table_if_not_exists].
    destruct (insert_goodreads_into_postgres (book_data r) (Some [])) as [db2|e] eqn:Hins.
    + intros H; inversion H; subst; cbn [store failure fetched].
      unfold insert_goodreads_into_postgres in Hins.
      destruct (book_data r) as [|b l]; [discriminate|].
      destruct (forallb accepted (b :: l) && negb (frame_nan (b :: l))); [|discriminate].
      now inversion Hins.
    + intros H; inversion H; subst; reflexivity.
Qed.

Lemma load_policy_witness :
  insert_goodreads_into_postgres mock_books (Some [Samples.old_record])
    = Returned (Some (Samples.old_record :: mock_books)) /\
  Some (Samples.old_record :: mock_books) = Some ([Samples.old_record] ++ mock_books).
Proof.
  split; [reflexivity|].
  exact (proj1 load_policy mock_books [Samples.old_record]
           (Some (Samples.old_record :: mock_books)) eq_refl).
Defined.

(** C5 as stated fails: a record a former run left in the table is gone
    after the next run of the DAG. *)
Lemma former_rows_are_dropped :
  option_map store
    (run_dag ascii_decimal ascii_lower Samples.empty_web 2 1 (Some [Samples.old_record]))
    = Some (Some mock_books) /\
  ~ In Samples.old_record mock_books.
Proof.
  split; [reflexivity|].
  intros [H|[H|[]]]; discriminate.
Qed.

(** ** Clipping to the target *)

(** When the rows [read] are collected, every usable title on them is the
    title of a collected record. *)
Lemma collected_covers decimal lower read bs sn ts :
  collected (_parse_row decimal lower) read bs sn -> discoverable read ts ->
  (List.length ts <= List.length bs)%nat.
Proof.
  intros Hc [Hnd Hts].
  rewrite <- (length_map Some ts), <- (length_map title bs).
  apply NoDup_incl_length.
  - apply Finite.Injective_map_NoDup; [|now apply NoDup_ListNoDup]. now intros x y [=].
  - intros o Ho. apply in_map_iff in Ho as (t & <- & Ht).
    destruct (Hts t Ht) as (Hne & tr & Htr & Htitle).
    destruct (col_parsed _ _ _ _ Hc tr Htr) as (b & Hb & Hsn).
    apply _parse_row_returned in Hb as (Hbt & _).
    rewrite <- Hbt in Htitle. specialize (Hsn t Htitle Hne).
    apply (col_seen _ _ _ _ Hc) in Hsn as (b' & Hb' & Hbt').
    rewrite <- Hbt'. now apply in_map.
Qed.

(** X8.  For a target that is not negative the crawl hands on at most
    [num_books] records, and exactly [num_books] when that many distinct
    usable titles are on the pages it requested and every row of these pages
    parses. *)
Lemma target_clipping decimal lower web num_books max_pages :
  0 <= num_books ->
  exists run,
    fetch_goodreads_books decimal lower web num_books max_pages = Some run /\
    len (book_data run) <= num_books /\
    forall ts,
      Forall (fun tr => returns (_parse_row decimal lower tr))
             (flat_map (rows_of web) (requests (trace run))) ->
      discoverable (flat_map (rows_of web) (requests (trace run))) ts ->
      num_books <= len ts ->
      len (book_data run) = num_books.
Proof.
  intros Hnb.
  destruct (fetch_exit decimal lower web num_books max_pages)
    as (st & how & _ & (k & read & rest & Hk & Hreq & Hflat & Hc & Hlen & Hrest) & Hrun).
  exists (finish num_books st how). split; [exact Hrun|].
  rewrite finish_requests, Hreq, Hflat.
  assert (Hdata : len (book_data (finish num_books st how)) <= num_books /\
                  (len (books st) = num_books ->
                   len (book_data (finish num_books st how)) = num_books)).
  { assert (Hcase : books st = [] \/ books st <> []).
    { destruct (books st); [now left|now right]. }
    destruct Hcase as [E|Hne].
    - destruct (finish_fallback num_books st how E) as [-> _].
      destruct (fallback_clipped num_books Hnb) as [-> Hmin]. rewrite Hmin.
      split; [lia|]. rewrite E. unfold len. simpl. lia.
    - rewrite (finish_collected num_books st how Hne (col_nodup _ _ _ _ Hc) Hlen).
      split; [lia|tauto]. }
  destruct Hdata as [Hle Hfull]. split; [exact Hle|].
  intros ts Hparse Hts Hmany. apply Hfull.
  assert (Hdone : rest = [] \/ len (books st) = num_books).
  { destruct how as [| | |e]; try exact Hrest.
    destruct Hrest as [->|(tr & rest' & -> & Hraise)]; [now left|].
    exfalso. rewrite List.Forall_forall in Hparse.
    destruct (Hparse tr) as [b Hb]; [|congruence].
    apply in_or_app. right. now left. }
  destruct Hdone as [->|Hdone]; [|exact Hdone].
  rewrite app_nil_r in Hts.
  pose proof (collected_covers _ _ _ _ _ _ Hc Hts) as Hcov.
  unfold len in *. lia.
Qed.

(** C1, on the source [comma_web] with a target of 2 and one page.  The
    page is requested and carries the distinct titles "Emma" and "Walden";
    parsing the row between them raises [ValueError] (the separator in its
    rating text matches the integer pattern), the crawl ends there and
    hands on one record instead of two. *)
Theorem clipping_after_parse_error :
  option_map (fun run => (List.map title (book_data run), requests (trace run), exit run))
    (fetch_goodreads_books ascii_decimal ascii_lower Samples.comma_web 2 1)
    = Some ([Some (lit "Emma")], [1], Except ValueError) /\
  discoverable (flat_map (rows_of Samples.comma_web) [1]) [lit "Emma"; lit "Walden"].
Proof.
  split; [reflexivity|]. split.
  - apply NoDup_cons. split; [|apply NoDup_singleton].
    rewrite list_elem_of_singleton. discriminate.
  - intros t [<-|[<-|[]]]; (split; [discriminate|]); eexists.
    + split; [now left|reflexivity].
    + split; [right; right; now left|reflexivity].
Qed.

(** The scenario of the specification: a target of 3, two pages, the second
    with one new title and one repeat. *)
Example two_page_scenario :
  option_map (fun run => (List.map title (book_data run), trace run, exit run))
    (fetch_goodreads_books ascii_decimal ascii_lower Samples.two_page_web 3 2)
    = Some ([Some (lit "Emma"); Some (lit "Walden"); Some (lit "Ulysses")],
            [Get 1; InfoPage 1 2 2; Get 2; InfoPage 2 1 3; InfoPushed 3],
            CondFalse).
Proof. reflexivity. Qed.

(** ** More on the parsing helpers *)

Lemma py_int_raises decimal s e : py_int decimal s = Raised e -> e = ValueError.
Proof.
  unfold py_int. destruct s; [now intros [= <-]|].
  destruct (too_long _); [now intros [= <-]|].
  destruct (digits_value _ _ _); [discriminate|now intros [= <-]].
Qed.

Lemma strip_commas_nil m : strip_commas m = [] <-> Forall (fun c => c = comma) m.
Proof.
  induction m as [|c m IH]; simpl; [split; [constructor|reflexivity]|].
  destruct (c =? comma)%N eqn:E; simpl.
  - apply N.eqb_eq in E. rewrite IH. split; [now constructor|now inversion 1].
  - apply N.eqb_neq in E. split; [discriminate|]. now inversion 1.
Qed.

(** X1.  [_to_float] never raises.  It returns null exactly when the string
    holds no decimal digit, and otherwise the value [float] gives to the
    first substring of the shape [\d+(?:\.\d+)?]: the leftmost one, and the
    longest that starts there. *)
Theorem to_float_contract decimal s :
  _to_float decimal None = Returned None /\
  exists v, _to_float decimal (Some s) = Returned v /\
    (v = None <-> Forall (fun c => is_digit decimal c = false) s) /\
    forall x, v = Some x ->
      exists pre m post, first_match (float_shape decimal) s pre m post /\
                         py_float decimal m = Returned x.
Proof.
  split; [reflexivity|].
  destruct (_to_float_returns decimal (Some s)) as [v Hv]. exists v.
  split; [exact Hv|]. apply _to_float_first in Hv. destruct v as [x|].
  - destruct Hv as (pre & m & post & Hfirst & Hx). split.
    + split; [discriminate|]. intros Hno. exfalso.
      destruct Hfirst as (-> & (ip & Hne & Hip & Hm) & _).
      assert (Hin : forall c, In c ip -> In c (pre ++ m ++ post)).
      { intros c Hc. apply in_or_app. right. apply in_or_app. left.
        destruct Hm as [->|(fp & _ & _ & ->)]; [exact Hc|apply in_or_app; now left]. }
      destruct ip as [|c ip]; [congruence|].
      rewrite List.Forall_forall in Hno. specialize (Hno c (Hin c (or_introl eq_refl))).
      inversion Hip; subst. congruence.
    + intros y [= <-]. now exists pre, m, post.
  - split; [|discriminate]. split; [|reflexivity]. intros _.
    apply List.Forall_forall. intros c Hc.
    destruct (is_digit decimal c) eqn:Hd; [|reflexivity]. exfalso.
    apply in_split in Hc as (pre & post & ->).
    apply (Hv pre [c] post); [reflexivity|].
    exists [c]. split; [discriminate|]. split; [now constructor|now left].
Qed.

(** X2.  [_to_int] on a string: null exactly when the string holds no digit
    and no comma; otherwise the first substring of the shape [[\d,]+]
    decides: with at least one digit and at most 4300 digits in it the value
    of its digits, commas removed; and [ValueError], the only exception
    [_to_int] raises, when it is made of commas or holds more than 4300
    digits. *)
Theorem to_int_contract decimal s :
  match _to_int decimal (Some s) with
  | Returned None => Forall (fun c => is_num_char decimal c = false) s
  | Returned (Some n) =>
      exists pre m post, first_match (int_shape decimal) s pre m post /\
        strip_commas m <> [] /\
        (N.of_nat (List.length (strip_commas m)) <= int_max_str_digits)%N /\
        py_int decimal (strip_commas m) = Returned n
  | Raised e =>
      e = ValueError /\
      exists pre m post, first_match (int_shape decimal) s pre m post /\
        (Forall (fun c => c = comma) m \/
         (int_max_str_digits < N.of_nat (List.length (strip_commas m)))%N)
  end.
Proof.
  destruct (_to_int decimal (Some s)) as [[n|]|e] eqn:H.
  - apply _to_int_first in H as (pre & m & post & Hfirst & Hn).
    exists pre, m, post. split; [exact Hfirst|].
    destruct Hfirst as (_ & Hm & _).
    destruct (readable_dec m) as [[Hne Hlen]|Hbad].
    + split; [exact Hne|]. split; [|exact Hn].
      unfold too_long in Hlen. now apply N.ltb_ge in Hlen.
    + apply (proj2 (py_int_group decimal m Hm)) in Hbad. congruence.
  - apply _to_int_first in H. apply List.Forall_forall. intros c Hc.
    destruct (is_num_char decimal c) eqn:Hd; [|reflexivity]. exfalso.
    apply in_split in Hc as (pre & post & ->).
    apply (H pre [c] post); [reflexivity|].
    split; [discriminate|now constructor].
  - unfold _to_int in H. destruct (falsy s); [discriminate|].
    destruct (re_search (_num_re decimal) s) as [[[pre m] post]|] eqn:Hs; [|discriminate].
    destruct (py_int decimal (strip_commas m)) as [n|e'] eqn:Hn; [discriminate|].
    simpl in H. injection H as <-. split; [now apply py_int_raises in Hn|].
    exists pre, m, post. pose proof (num_search_first _ _ _ _ _ Hs) as Hfirst.
    split; [exact Hfirst|].
    destruct Hfirst as (_ & Hm & _). destruct (py_int_group decimal m Hm) as [Hok _].
    destruct (readable_dec m) as [Hr|Hbad]; [destruct (Hok Hr) as [n Hn']; congruence|].
    unfold readable in Hbad.
    destruct (strip_commas m) as [|c0 l0] eqn:E; [left; now apply strip_commas_nil|].
    right. destruct (too_long (c0 :: l0)) eqn:Hlen.
    + unfold too_long in Hlen. now apply N.ltb_lt in Hlen.
    + exfalso. apply Hbad. split; [discriminate|reflexivity].
Qed.

(** X3.  [_to_float] does not read thousands separators: on a text that
    starts with digits followed by a comma it returns the value of these
    digits alone, whatever comes after the comma. *)
Theorem to_float_stops_at_comma decimal ip rest :
  ip <> [] -> all_digits decimal ip -> is_digit decimal comma = false ->
  exists n, digits_value decimal 0 ip = Some n /\
    _to_float decimal (Some (ip ++ comma :: rest)) = Returned (Some (inject_Z (Z.of_N n))).
Proof.
  intros Hne Hip Hcomma. destruct (digits_value_all decimal 0 ip Hip) as [n Hn].
  exists n. split; [exact Hn|].
  apply forallb_Forall_true in Hip.
  assert (Hre : _float_re decimal (ip ++ comma :: rest) = Some (ip, comma :: rest)).
  { unfold _float_re. rewrite (span_app _ ip (comma :: rest) Hip Hcomma).
    destruct ip; [congruence|reflexivity]. }
  assert (Hfl : py_float decimal ip = Returned (inject_Z (Z.of_N n))).
  { unfold py_float. rewrite <- (app_nil_r ip) at 1.
    rewrite (span_app _ ip [] Hip I), Hn. destruct ip; [congruence|reflexivity]. }
  unfold _to_float. destruct (ip ++ comma :: rest) as [|c t] eqn:E.
  { destruct ip; discriminate. }
  simpl falsy. cbv iota. simpl re_search. rewrite Hre. simpl. now rewrite Hfl.
Qed.

Lemma to_float_stops_at_comma_witness :
  lit "9" <> [] /\ all_digits ascii_decimal (lit "9") /\ is_digit ascii_decimal comma = false /\
  exists n, digits_value ascii_decimal 0 (lit "9") = Some n /\
    _to_float ascii_decimal (Some (lit "9" ++ comma :: lit "117,773 ratings"))
      = Returned (Some (inject_Z (Z.of_N n))).
Proof.
  assert (H9 : all_digits ascii_decimal (lit "9")) by (repeat constructor).
  split; [discriminate|]. split; [exact H9|]. split; [reflexivity|].
  exact (to_float_stops_at_comma ascii_decimal (lit "9") (lit "117,773 ratings")
           ltac:(discriminate) H9 eq_refl).
Defined.

(** ** When [_parse_row] raises *)

Lemma tokens_shapes pat s l : tokens pat s l -> Forall pat l.
Proof.
  induction 1 as [|s pre m post l (_ & Hm & _) _ IH]; constructor; assumption.
Qed.

Section RaiseFacts.

Variable decimal : char -> option N.
Variable lower : str -> str.

Lemma ints_of_returns groups :
  Forall (int_shape decimal) groups ->
  (returns (ints_of decimal groups) <-> Forall readable groups).
Proof.
  induction 1 as [|g groups Hg _ IH]; simpl.
  - split; [constructor|now eexists].
  - destruct (py_int_group decimal g Hg) as [Hok Hbad].
    destruct (readable_dec g) as [Hr|Hnr].
    + destruct (Hok Hr) as [n Hn]. rewrite Hn. simpl. split.
      * intros [xs Hxs]. constructor; [exact Hr|]. apply IH.
        destruct (ints_of decimal groups); [now eexists|discriminate].
      * inversion 1; subst. destruct IH as [_ IH]. destruct (IH H3) as [xs ->].
        simpl. now eexists.
    + rewrite (Hbad Hnr). simpl. split.
      * intros [x Hx]. discriminate.
      * inversion 1; contradiction.
Qed.

Lemma ints_of_raises groups e : ints_of decimal groups = Raised e -> e = ValueError.
Proof.
  induction groups as [|g groups IH]; simpl; [discriminate|].
  destruct (py_int decimal (strip_commas g)) as [x|e'] eqn:Hx; simpl.
  - destruct (ints_of decimal groups) as [xs|e']; simpl; [discriminate|].
    intros [= <-]. now apply IH.
  - intros [= <-]. now apply py_int_raises in Hx.
Qed.

Lemma spotless_findall s :
  spotless decimal s <-> Forall readable (re_findall (_num_re decimal) s).
Proof.
  pose proof (num_findall_tokens decimal s) as Htok. split.
  - intros H. now apply H.
  - intros H groups Hg. now rewrite (tokens_unique _ _ _ _ Hg Htok).
Qed.

Lemma _to_int_raises s e : _to_int decimal s = Raised e -> e = ValueError.
Proof.
  destruct s as [s|]; [|discriminate]. simpl. destruct (falsy s); [discriminate|].
  destruct (re_search _ s) as [[[pre m] post]|]; [|discriminate].
  destruct (py_int decimal (strip_commas m)) as [n|e'] eqn:Hn; [discriminate|].
  simpl. intros [= <-]. now apply py_int_raises in Hn.
Qed.

Lemma _to_int_returns_iff s :
  returns (_to_int decimal (Some s)) <-> first_spotless decimal s.
Proof.
  destruct s as [|c s].
  { split; [|now eexists]. intros _ pre m post (E & Hm & _).
    apply int_shape_nonempty in Hm. destruct pre; [|discriminate].
    destruct m; [congruence|discriminate]. }
  destruct (re_search (_num_re decimal) (c :: s)) as [[[pre m] post]|] eqn:Hs.
  - pose proof (num_search_first _ _ _ _ _ Hs) as Hfirst.
    destruct (_to_int_group decimal (c :: s) pre m post ltac:(discriminate) Hs) as [Hok Hbad].
    split.
    + intros [v Hv] pre' m' post' Hfirst'.
      destruct (first_match_unique _ _ _ _ _ _ _ _ Hfirst Hfirst') as (_ & <- & _).
      destruct (readable_dec m) as [Hr|Hnr]; [exact Hr|].
      rewrite (Hbad Hnr) in Hv. discriminate.
    + intros Hclean. destruct (Hok (Hclean pre m post Hfirst)) as (n & _ & Hn).
      rewrite Hn. now eexists.
  - split.
    + intros _ pre m post (E & Hm & _). apply num_search_none in Hs.
      now destruct (Hs pre m post E).
    + intros _. unfold _to_int. simpl falsy. cbv iota. rewrite Hs. now eexists.
Qed.

Lemma people_voted_of_anchor anchors :
  people_voted_of decimal lower anchors =
    match voted_anchor lower anchors with
    | Some txt => _to_int decimal (Some txt)
    | None => Returned None
    end.
Proof.
  unfold voted_anchor. induction anchors as [|a anchors IH]; simpl; [reflexivity|].
  destruct (contains (lit "people voted") (lower a)); [reflexivity|exact IH].
Qed.

End RaiseFacts.

(** X4.  [_parse_row] returns a record exactly when [int] can read every
    integer token of the rating text (the token holds at least one digit and
    at most 4300) and also the first integer token of the score anchor and
    of the first anchor that mentions "people voted", as far as the row has
    them; a row that misses any of the three is no obstacle.  When it
    raises, it raises [ValueError]. *)
Theorem parse_row_returns_iff decimal lower tr :
  (returns (_parse_row decimal lower tr) <->
     spotless decimal (mini_text tr) /\
     (forall t, score_link tr = Some t -> first_spotless decimal t) /\
     (forall t, voted_anchor lower (links tr) = Some t -> first_spotless decimal t)) /\
  (forall e, _parse_row decimal lower tr = Raised e -> e = ValueError).
Proof.
  pose proof (tokens_shapes _ _ _ (num_findall_tokens decimal (mini_text tr))) as Hshapes.
  pose proof (ints_of_returns decimal _ Hshapes) as Hints.
  rewrite <- spotless_findall in Hints.
  assert (Hscore : returns (match score_link tr with
                            | Some t => _to_int decimal (Some t)
                            | None => Returned None
                            end)
                   <-> forall t, score_link tr = Some t -> first_spotless decimal t).
  { destruct (score_link tr) as [t|].
    - rewrite _to_int_returns_iff. split; [now intros H t' [= <-]|now intros H; apply H].
    - split; [discriminate|now eexists]. }
  assert (Hvoted : returns (people_voted_of decimal lower (links tr))
                   <-> forall t, voted_anchor lower (links tr) = Some t ->
                                 first_spotless decimal t).
  { rewrite people_voted_of_anchor. destruct (voted_anchor lower (links tr)) as [t|].
    - rewrite _to_int_returns_iff. split; [now intros H t' [= <-]|now intros H; apply H].
    - split; [discriminate|now eexists]. }
  rewrite <- Hints, <- Hscore, <- Hvoted. clear Hints Hscore Hvoted Hshapes.
  unfold _parse_row.
  destruct (_to_float_returns decimal (Some (mini_text tr))) as [a ->]. simpl.
  destruct (ints_of decimal _) as [nums|e1] eqn:H1; simpl.
  2: { split.
       - split; [intros [b Hb]; discriminate|intros ([x Hx] & _); discriminate].
       - intros e [= <-]. now apply ints_of_raises in H1. }
  destruct (match score_link tr with Some t => _ | None => _ end) as [sc|e2] eqn:H2; simpl.
  2: { split.
       - split; [intros [b Hb]; discriminate|intros (_ & [x Hx] & _); discriminate].
       - intros e [= <-]. destruct (score_link tr) as [t0|]; [|discriminate].
         exact (_to_int_raises decimal (Some t0) _ H2). }
  destruct (people_voted_of decimal lower (links tr)) as [pv|e3] eqn:H3; simpl.
  - split; [|discriminate]. split; [|now eexists].
    intros _. split_and!; now eexists.
  - split.
    + split; [intros [b Hb]; discriminate|intros (_ & _ & [x Hx]); discriminate].
    + intros e [= <-]. rewrite people_voted_of_anchor in H3.
      destruct (voted_anchor lower (links tr)) as [t0|]; [|discriminate].
      exact (_to_int_raises decimal (Some t0) _ H3).
Qed.

(** ** How the loop is left *)

Lemma _parse_row_raises decimal lower tr e :
  _parse_row decimal lower tr = Raised e -> e = ValueError.
Proof.
  unfold _parse_row.
  destruct (_to_float_returns decimal (Some (mini_text tr))) as [a ->]. simpl.
  destruct (ints_of decimal _) as [nums|e1] eqn:H1; simpl.
  2: { intros [= <-]. now apply ints_of_raises in H1. }
  destruct (match score_link tr with Some t => _ | None => _ end) as [sc|e2] eqn:H2; simpl.
  2: { intros [= <-]. destruct (score_link tr) as [t0|]; [|discriminate].
       exact (_to_int_raises decimal (Some t0) _ H2). }
  destruct (people_voted_of decimal lower (links tr)) as [pv|e3] eqn:H3; simpl; [discriminate|].
  intros [= <-]. rewrite people_voted_of_anchor in H3.
  destruct (voted_anchor lower (links tr)) as [t0|]; [|discriminate].
  exact (_to_int_raises decimal (Some t0) _ H3).
Qed.

Lemma for_rows_raised decimal lower num_books rows :
  forall bs sn found bs' sn' found' e,
    for_rows decimal lower num_books rows bs sn found = (bs', sn', found', Some e) ->
    exists tr, In tr rows /\ _parse_row decimal lower tr = Raised e.
Proof.
  induction rows as [|tr rows IH]; intros bs sn found bs' sn' found' e H; [discriminate|].
  simpl in H. destruct (_parse_row decimal lower tr) as [row|e0] eqn:Hrow.
  2: { injection H as <- <- <- <-. exists tr. split; [now left|exact Hrow]. }
  assert (Hrec : forall bs sn found,
            for_rows decimal lower num_books rows bs sn found = (bs', sn', found', Some e) ->
            exists tr0, In tr0 (tr :: rows) /\ _parse_row decimal lower tr0 = Raised e).
  { intros bs0 sn0 found0 H0. destruct (IH _ _ _ _ _ _ _ H0) as (tr0 & Hin & Hr).
    exists tr0. split; [now right|exact Hr]. }
  destruct (title row) as [t|]; [|now apply Hrec in H].
  destruct (falsy t || bool_decide (t ∈ sn)); [now apply Hrec in H|].
  destruct (len (bs ++ [row]) >=? num_books); [discriminate|now apply Hrec in H].
Qed.

Section Leaving.

Variable decimal : char -> option N.
Variable lower : str -> str.
Variable web : Z -> Response.
Variable num_books max_pages : Z.

Let parse := _parse_row decimal lower.
Let loop := while_loop decimal lower web num_books max_pages.

(** Only loop events are in the output while the loop turns. *)
Lemma loop_events_only fuel st st' how :
  Forall loop_event (out st) -> loop fuel st = Some (st', how) ->
  Forall loop_event (out st').
Proof.
  intros HP H.
  apply (while_loop_invariant decimal lower web num_books max_pages
           (fun st => Forall loop_event (out st))
           (fun st _ => Forall loop_event (out st))) with (fuel := fuel) (st := st) (how := how);
    [now intros| |exact HP|exact H].
  clear. intros st HP _. unfold turn. cbn [say page books seen out].
  assert (Hget : Forall loop_event (out st ++ [Get (page st)])).
  { apply Forall_app. split; [exact HP|]. now repeat constructor. }
  destruct (web (page st)) as [|status rows]; [exact Hget|].
  destruct (negb (status =? 200)).
  { cbn [say out]. apply Forall_app. split; [exact Hget|]. now repeat constructor. }
  destruct (for_rows _ _ _ _ _ _ _) as [[[bs sn] pf] [e|]]; [exact Hget|].
  assert (Hinfo : Forall loop_event ((out st ++ [Get (page st)]) ++ [InfoPage (page st) pf (len bs)])).
  { apply Forall_app. split; [exact Hget|]. now repeat constructor. }
  destruct ((pf =? 0) && (1 <? page st)); cbn [say out page books seen]; [|exact Hinfo].
  apply Forall_app. split; [exact Hinfo|]. now repeat constructor.
Qed.

Local Ltac reqs H :=
  cbn [say out page books seen]; rewrite H, !requests_app;
  cbn [requests app]; rewrite ?app_nil_r; reflexivity.

Lemma stop_reason_at_exit fuel st how :
  loop fuel start = Some (st, how) ->
  exists k : nat, requests (out st) = pages k /\
                  stop_reason parse web num_books max_pages st how k.
Proof.
  apply (while_loop_invariant decimal lower web num_books max_pages
           (fun st => exists k : nat, page st = Z.of_nat k + 1 /\ requests (out st) = pages k)
           (fun st how => exists k : nat, requests (out st) = pages k /\
                            stop_reason parse web num_books max_pages st how k)).
  - intros s (k & Hpage & Hreq) Hc. exists k. split; [exact Hreq|].
    unfold cond in Hc. apply andb_false_iff in Hc as [Hc|Hc].
    + left. apply Z.ltb_ge in Hc. exact Hc.
    + right. apply Z.leb_gt in Hc. lia.
  - intros s (k & Hpage & Hreq) _.
    assert (Hk : Z.of_nat (S k) = page s) by lia.
    assert (Hnext : pages (S k) = requests (out s) ++ [page s]).
    { now rewrite pages_S, Hreq, Hpage. }
    unfold turn. cbn [say page books seen out].
    destruct (web (page s)) as [|status rows] eqn:Hweb.
    { exists (S k). split; [reqs Hnext|].
      cbn [stop_reason]. rewrite Hk. split; [lia|exact Hweb]. }
    destruct (status =? 200) eqn:Hst; cbn [negb].
    2: { exists (S k). cbn [say out].
         split; [reqs Hnext|].
         cbn [stop_reason]. rewrite Hk. split; [lia|].
         exists status, rows. split; [exact Hweb|]. now apply Z.eqb_neq in Hst. }
    apply Z.eqb_eq in Hst. subst status.
    destruct (for_rows _ _ _ _ _ _ _) as [[[bs sn] pf] [e|]] eqn:Hrows.
    { exists (S k). cbn [out].
      split; [reqs Hnext|].
      destruct (for_rows_raised _ _ _ _ _ _ _ _ _ _ _ Hrows) as (tr & Hin & Hraise).
      pose proof (_parse_row_raises _ _ _ _ Hraise) as ->.
      cbn [stop_reason]. rewrite Hk. split; [lia|]. now exists rows, tr. }
    destruct ((pf =? 0) && (1 <? page s)) eqn:Hbrk.
    + apply andb_true_iff in Hbrk as [Hpf Hp]. apply Z.eqb_eq in Hpf. subst pf.
      apply Z.ltb_lt in Hp.
      exists (S k). cbn [say out page books seen].
      split; [reqs Hnext|].
      cbn [stop_reason books out say]. rewrite Hk. split; [lia|]. split; [now exists rows|].
      apply in_or_app. left. apply in_or_app. right. now left.
    + exists (S k). split; [cbn [page]; lia|reqs Hnext].
  - exists 0%nat. split; reflexivity.
Qed.

End Leaving.

(** X5.  When the loop is left, [seen] holds exactly the titles of the
    records in [books], no two records share a title and there are at most
    [num_books] of them (none for a target below 1).  So the de-duplication
    and the clipping after the loop drop no record and move none: what is
    handed on has, row for row, the titles of what was collected; and the
    fallback warning is printed exactly when nothing was collected. *)
Theorem collected_rows_are_handed_on decimal lower web num_books max_pages :
  exists st how,
    while_loop decimal lower web num_books max_pages (S (Z.to_nat max_pages)) start
      = Some (st, how) /\
    fetch_goodreads_books decimal lower web num_books max_pages
      = Some (finish num_books st how) /\
    (forall t, t ∈ seen st <-> exists b, In b (books st) /\ title b = Some t) /\
    NoDup (List.map title (books st)) /\
    len (books st) <= Z.max 0 num_books /\
    (books st <> [] ->
       List.map title (book_data (finish num_books st how)) = List.map title (books st)) /\
    (books st = [] <-> In WarnFallback (trace (finish num_books st how))).
Proof.
  destruct (fetch_exit decimal lower web num_books max_pages)
    as (st & how & Hloop & (k & read & rest & _ & _ & _ & Hc & Hlen & _) & Hrun).
  exists st, how. split; [exact Hloop|]. split; [exact Hrun|].
  split; [apply (col_seen _ _ _ _ Hc)|]. split; [apply (col_nodup _ _ _ _ Hc)|].
  split; [exact Hlen|]. split.
  - intros Hne. f_equal. now apply finish_collected; [|apply (col_nodup _ _ _ _ Hc)|].
  - split; [now intros E; apply finish_fallback|].
    intros Hwarn.
    assert (Hquiet : Forall loop_event (out st)).
    { exact (loop_events_only decimal lower web num_books max_pages _ start st how
               (List.Forall_nil _) Hloop). }
    destruct (books st) as [|b bs] eqn:E; [reflexivity|]. exfalso.
    unfold finish in Hwarn. rewrite E in Hwarn. cbn [trace] in Hwarn.
    apply in_app_or in Hwarn as [Hwarn|[Hwarn|[]]]; [|discriminate].
    assert (Hout : In WarnFallback (out st)).
    { destruct how; try exact Hwarn.
      apply in_app_or in Hwarn as [Hwarn|[Hwarn|[]]]; [exact Hwarn|discriminate]. }
    rewrite List.Forall_forall in Hquiet. exact (Hquiet _ Hout).
Qed.

(** X6.  The way the loop is left tells what happened on the last page
    requested, page [k]: left by its condition, the target was met or
    [max_pages] pages were requested; left by the [break] of line 142, page
    [k] answered with a status other than 200; left by the [break] of line
    162, page [k] is a page after the first that answered 200 and the line
    printed for it reports no new row; left by an exception, either the
    request for page [k] raised or a row of page [k] made [_parse_row] raise
    [ValueError]. *)
Theorem stop_reasons decimal lower web num_books max_pages :
  exists st how (k : nat),
    while_loop decimal lower web num_books max_pages (S (Z.to_nat max_pages)) start
      = Some (st, how) /\
    requests (out st) = pages k /\
    stop_reason (_parse_row decimal lower) web num_books max_pages st how k.
Proof.
  destruct (fetch_exit decimal lower web num_books max_pages) as (st & how & Hloop & _).
  destruct (stop_reason_at_exit decimal lower web num_books max_pages _ _ _ Hloop)
    as (k & Hreq & Hstop).
  now exists st, how, k.
Qed.

(** ** Targets below 1 *)

Lemma fallback_nonpositive n :
  n <= 0 -> head n (drop_duplicates (head n mock_books)) = [].
Proof.
  intros Hn. unfold head. destruct (0 <=? n) eqn:E.
  - apply Z.leb_le in E. replace n with 0 by lia. reflexivity.
  - destruct (Z.to_nat (- n)) as [|[|j]] eqn:Ej; [apply Z.leb_gt in E; lia| |]; reflexivity.
Qed.

Lemma while_loop_nonpositive decimal lower web num_books max_pages fuel :
  num_books <= 0 ->
  while_loop decimal lower web num_books max_pages (S fuel) start = Some (start, CondFalse).
Proof.
  intros Hn. simpl. unfold cond, len. simpl.
  assert (E : (Z.of_nat 0 <? num_books) = false) by (apply Z.ltb_ge; simpl; lia).
  now rewrite E.
Qed.

Lemma fetch_nonempty decimal lower web num_books max_pages :
  0 < num_books ->
  exists run, fetch_goodreads_books decimal lower web num_books max_pages = Some run /\
              book_data run <> [].
Proof.
  intros Hpos.
  destruct (fetch_exit decimal lower web num_books max_pages)
    as (st & how & _ & (k & read & rest & _ & _ & _ & Hc & Hlen & _) & Hrun).
  exists (finish num_books st how). split; [exact Hrun|].
  assert (Hcase : books st = [] \/ books st <> []).
  { destruct (books st); [now left|now right]. }
  destruct Hcase as [E|Hne].
  - destruct (finish_fallback num_books st how E) as [-> _].
    destruct (fallback_clipped num_books ltac:(lia)) as [-> _].
    destruct (Z.to_nat num_books) eqn:En; [lia|discriminate].
  - now rewrite (finish_collected num_books st how Hne (col_nodup _ _ _ _ Hc) Hlen).
Qed.

(** X9.  A run of the DAG hands an empty record list to the insert task
    exactly when [num_books] is below 1, and exactly then the insert task
    raises its [ValueError] ("No book data found"): for a positive target
    the crawl always hands on at least one record.  With a target below 1
    no page is requested and the table, dropped and created anew, is left
    empty. *)
Theorem no_book_data_iff decimal lower web num_books max_pages db :
  exists run,
    run_dag decimal lower web num_books max_pages db = Some run /\
    (book_data (fetched run) = [] <-> num_books <= 0) /\
    (failure run = Some ValueError <-> num_books <= 0) /\
    (num_books <= 0 -> requests (trace (fetched run)) = [] /\ store run = Some []).
Proof.
  destruct (Z_le_gt_dec num_books 0) as [Hn|Hpos].
  - assert (Hrun : fetch_goodreads_books decimal lower web num_books max_pages
                   = Some (finish num_books start CondFalse)).
    { unfold fetch_goodreads_books. now rewrite while_loop_nonpositive. }
    destruct (finish_fallback num_books start CondFalse eq_refl) as [Hdata _].
    rewrite (fallback_nonpositive num_books Hn) in Hdata.
    unfold run_dag. rewrite Hrun, Hdata. cbn [insert_goodreads_into_postgres].
    eexists. split; [reflexivity|]. cbn [fetched failure store].
    rewrite Hdata, finish_requests. now split_and!.
  - destruct (fetch_nonempty decimal lower web num_books max_pages ltac:(lia))
      as (run & Hrun & Hne).
    unfold run_dag. rewrite Hrun.
    cbn [create_table_task drop_table_if_exists create_table_if_not_exists].
    unfold insert_goodreads_into_postgres.
    destruct (book_data run) as [|b l] eqn:E; [congruence|].
    destruct (forallb accepted (b :: l) && negb (frame_nan (b :: l)));
      (eexists; split; [reflexivity|]);
      cbn [fetched failure store]; rewrite E;
      (split_and!; [split; [discriminate|lia]|split; [discriminate|lia]|lia]).
Qed.

Lemma target_clipping_witness :
  0 <= 3 /\
  exists run,
    fetch_goodreads_books ascii_decimal ascii_lower Samples.two_page_web 3 2 = Some run /\
    len (book_data run) <= 3 /\
    forall ts,
      Forall (fun tr => returns (_parse_row ascii_decimal ascii_lower tr))
             (flat_map (rows_of Samples.two_page_web) (requests (trace run))) ->
      discoverable (flat_map (rows_of Samples.two_page_web) (requests (trace run))) ts ->
      3 <= len ts ->
      len (book_data run) = 3.
Proof.
  split; [discriminate|].
  exact (target_clipping ascii_decimal ascii_lower Samples.two_page_web 3 2
           ltac:(discriminate)).
Defined.

(** ** The order of the records *)

Lemma first_titles_snoc read tr :
  first_titles (read ++ [tr]) = note_title (first_titles read) tr.
Proof. unfold first_titles. now rewrite fold_left_app. Qed.

Section Order.

Variable decimal : char -> option N.
Variable lower : str -> str.
Variable web : Z -> Response.
Variable num_books max_pages : Z.

Let parse := _parse_row decimal lower.

Lemma in_order_start : in_order [] [] ∅.
Proof.
  split; [reflexivity|]. intros t. split; [|intros []].
  intros Hin. now apply not_elem_of_empty in Hin.
Qed.

Lemma in_order_skip read bs sn tr row :
  in_order read bs sn -> parse tr = Returned row ->
  (forall t, title row = Some t -> t <> [] -> t ∈ sn) ->
  in_order (read ++ [tr]) bs sn.
Proof.
  intros [Hmap Hsn] Hrow Hold.
  apply _parse_row_returned in Hrow as (Ht & _).
  assert (E : note_title (first_titles read) tr = first_titles read).
  { unfold note_title. rewrite <- Ht. destruct (title row) as [t|]; [|reflexivity].
    destruct (falsy t) eqn:Hf; [reflexivity|]. simpl.
    rewrite bool_decide_eq_true_2; [reflexivity|].
    apply list_elem_of_In, Hsn, Hold; [reflexivity|]. now destruct t. }
  unfold in_order. now rewrite first_titles_snoc, E.
Qed.

Lemma in_order_add read bs sn tr row t :
  in_order read bs sn -> parse tr = Returned row ->
  title row = Some t -> falsy t = false -> t ∉ sn ->
  in_order (read ++ [tr]) (bs ++ [row]) ({[ t ]} ∪ sn).
Proof.
  intros [Hmap Hsn] Hrow Ht Hf Hnew.
  apply _parse_row_returned in Hrow as (Hrt & _).
  assert (E : note_title (first_titles read) tr = first_titles read ++ [t]).
  { unfold note_title. rewrite <- Hrt, Ht, Hf. simpl.
    rewrite bool_decide_eq_false_2; [reflexivity|].
    intros Hin. apply Hnew, Hsn. now apply list_elem_of_In. }
  unfold in_order. rewrite first_titles_snoc, E, !map_app, Hmap. simpl. rewrite Ht.
  split; [reflexivity|].
  intros t'. rewrite elem_of_union, elem_of_singleton, Hsn, in_app_iff. simpl.
  split; [intros [->|H]; auto|intros [H|[->|[]]]; auto].
Qed.

Lemma for_rows_in_order rows : forall read bs sn found bs' sn' found' raised,
  in_order read bs sn ->
  for_rows decimal lower num_books rows bs sn found = (bs', sn', found', raised) ->
  exists rd rest,
    rows = rd ++ rest /\ in_order (read ++ rd) bs' sn' /\
    match raised with
    | Some e => exists tr rest', rest = tr :: rest' /\ parse tr = Raised e
    | None => rest = [] \/ num_books <= len bs'
    end.
Proof.
  induction rows as [|tr rows IH]; intros read bs sn found bs' sn' found' raised Ho H.
  - injection H as <- <- <- <-. exists [], []. rewrite (app_nil_r read).
    split; [reflexivity|]. split; [exact Ho|now left].
  - simpl in H. fold parse in H. destruct (parse tr) as [row|e] eqn:Hrow.
    2: { injection H as <- <- <- <-. exists [], (tr :: rows). rewrite (app_nil_r read).
         split; [reflexivity|]. split; [exact Ho|now exists tr, rows]. }
    assert (Hskip : (forall t, title row = Some t -> t <> [] -> t ∈ sn) ->
                    for_rows decimal lower num_books rows bs sn found
                      = (bs', sn', found', raised) ->
                    exists rd rest,
                      tr :: rows = rd ++ rest /\ in_order (read ++ rd) bs' sn' /\
                      match raised with
                      | Some e => exists tr rest', rest = tr :: rest' /\ parse tr = Raised e
                      | None => rest = [] \/ num_books <= len bs'
                      end).
    { intros Hold H'.
      destruct (IH (read ++ [tr]) bs sn found bs' sn' found' raised
                  (in_order_skip _ _ _ _ _ Ho Hrow Hold) H')
        as (rd & rest & -> & Ho' & Hrest).
      exists (tr :: rd), rest. split; [reflexivity|].
      rewrite <- app_assoc in Ho'. now split. }
    destruct (title row) as [t|] eqn:Ht; [|apply Hskip; [discriminate|exact H]].
    destruct (falsy t) eqn:Hf.
    { apply Hskip; [|exact H]. intros t' E. inversion E; subst. now destruct t'. }
    simpl in H. destruct (bool_decide (t ∈ sn)) eqn:Hin.
    { apply bool_decide_eq_true in Hin. apply Hskip; [|exact H].
      intros t' E. now inversion E; subst. }
    apply bool_decide_eq_false in Hin.
    pose proof (in_order_add _ _ _ _ _ _ Ho Hrow Ht Hf Hin) as Ho1.
    destruct (len (bs ++ [row]) >=? num_books) eqn:Hge.
    + injection H as <- <- <- <-. exists [tr], rows.
      split; [reflexivity|]. split; [exact Ho1|]. right.
      unfold Z.geb in Hge. destruct (len (bs ++ [row]) ?= num_books) eqn:Hcmp;
        try discriminate; [apply Z.compare_eq in Hcmp|apply Z.compare_gt_iff in Hcmp]; lia.
    + destruct (IH (read ++ [tr]) (bs ++ [row]) ({[ t ]} ∪ sn) (found + 1)
                  bs' sn' found' raised Ho1 H)
        as (rd & rest & -> & Ho' & Hr).
      exists (tr :: rd), rest. split; [reflexivity|].
      rewrite <- app_assoc in Ho'. now split.
Qed.

Local Ltac pages_requested H :=
  cbn [say out page books seen]; rewrite H, !requests_app;
  cbn [requests app]; rewrite ?app_nil_r; reflexivity.

Lemma in_order_at_exit fuel st how :
  while_loop decimal lower web num_books max_pages fuel start = Some (st, how) ->
  exists k,
    crawled_in_order web k st
      (fun rest => rest = [] \/ num_books <= len (books st) \/
                   exists tr rest', rest = tr :: rest' /\ parse tr = Raised ValueError).
Proof.
  apply (while_loop_invariant decimal lower web num_books max_pages
           (fun st => exists k : nat, page st = Z.of_nat k + 1 /\
              crawled_in_order web k st
                (fun rest => rest = [] \/ num_books <= len (books st)))
           (fun st how => exists k : nat,
              crawled_in_order web k st
                (fun rest => rest = [] \/ num_books <= len (books st) \/
                   exists tr rest', rest = tr :: rest' /\ parse tr = Raised ValueError))).
  - intros s (k & _ & read & rest & Hreq & Hflat & Ho & Hrest) _.
    exists k, read, rest. split_and!; try assumption. tauto.
  - intros s (k & Hpage & read & rest & Hreq & Hflat & Ho & Hrest) Hc.
    unfold cond in Hc. apply andb_true_iff in Hc as [Hlt _]. apply Z.ltb_lt in Hlt.
    destruct Hrest as [->|Hfull]; [|lia]. rewrite app_nil_r in Hflat.
    assert (Hnext : pages (S k) = requests (out s) ++ [page s]).
    { now rewrite pages_S, Hreq, Hpage. }
    unfold turn. cbn [say page books seen out].
    destruct (web (page s)) as [|status rows] eqn:Hweb.
    { exists (S k), read, []. split_and!; [pages_requested Hnext| |exact Ho|now left].
      rewrite flat_map_pages_S, Hflat, <- Hpage. unfold rows_of. now rewrite Hweb. }
    destruct (status =? 200) eqn:Hst; cbn [negb].
    2: { exists (S k), read, []. split_and!; [pages_requested Hnext| |exact Ho|now left].
         rewrite flat_map_pages_S, Hflat, <- Hpage. unfold rows_of. now rewrite Hweb, Hst. }
    apply Z.eqb_eq in Hst. subst status.
    destruct (for_rows _ _ _ _ _ _ _) as [[[bs sn] pf] raised] eqn:Hrows.
    destruct (for_rows_in_order rows read _ _ _ _ _ _ _ Ho Hrows)
      as (rd & rs & -> & Ho' & Hr).
    assert (Hflat' : flat_map (rows_of web) (pages (S k)) = (read ++ rd) ++ rs).
    { rewrite flat_map_pages_S, Hflat, <- Hpage, (rows_of_page _ _ _ Hweb).
      now rewrite app_assoc. }
    destruct raised as [e|].
    { exists (S k), (read ++ rd), rs. cbn [books seen out].
      split_and!; [pages_requested Hnext|exact Hflat'|exact Ho'|].
      destruct Hr as (tr & rest' & -> & Hraise). right. right.
      pose proof (_parse_row_raises _ _ _ _ Hraise) as ->. now exists tr, rest'. }
    destruct ((pf =? 0) && (1 <? page s)).
    + exists (S k), (read ++ rd), rs. cbn [say books seen out].
      split_and!; [pages_requested Hnext|exact Hflat'|exact Ho'|tauto].
    + exists (S k). split; [cbn [page]; lia|].
      exists (read ++ rd), rs. cbn [books seen out].
      split_and!; [pages_requested Hnext|exact Hflat'|exact Ho'|exact Hr].
  - exists 0%nat. split; [reflexivity|]. exists [], [].
    split_and!; [reflexivity|reflexivity|apply in_order_start|now left].
Qed.

End Order.

(** X7.  The records handed on keep the order of discovery.  The rows of
    the requested pages split into the rows read and the rest; unless the
    fallback was substituted, the titles of the records are, in this order,
    the distinct usable titles of the rows read, each where it first occurs.
    Rows are left unread only when the target was met or when the first of
    them made [_parse_row] raise. *)
Theorem titles_in_discovery_order decimal lower web num_books max_pages :
  exists run read rest,
    fetch_goodreads_books decimal lower web num_books max_pages = Some run /\
    flat_map (rows_of web) (requests (trace run)) = read ++ rest /\
    (In WarnFallback (trace run) \/
     List.map title (book_data run) = List.map Some (first_titles read)) /\
    (rest = [] \/ num_books <= len (book_data run) \/
     exists tr rest', rest = tr :: rest' /\
                      _parse_row decimal lower tr = Raised ValueError).
Proof.
  destruct (fetch_exit decimal lower web num_books max_pages)
    as (st & how & Hloop & (k0 & read0 & rest0 & _ & _ & _ & Hc & Hlen & _) & Hrun).
  destruct (in_order_at_exit decimal lower web num_books max_pages _ _ _ Hloop)
    as (k & read & rest & Hreq & Hflat & [Hmap _] & Hrest).
  exists (finish num_books st how), read, rest. split; [exact Hrun|].
  rewrite finish_requests, Hreq. split; [exact Hflat|].
  assert (Hcase : books st = [] \/ books st <> []).
  { destruct (books st); [now left|now right]. }
  destruct Hcase as [E|Hne].
  - destruct (finish_fallback num_books st how E) as [Hdata Hwarn].
    split; [now left|].
    destruct Hrest as [->|[Hfull|Hraise]]; [now left| |now right; right].
    right. left. rewrite E in Hfull. unfold len in Hfull. simpl in Hfull.
    rewrite Hdata, (fallback_nonpositive num_books Hfull). exact Hfull.
  - rewrite (finish_collected num_books st how Hne (col_nodup _ _ _ _ Hc) Hlen).
    split; [now right|].
    destruct Hrest as [->|[Hfull|Hraise]]; [now left| |now right; right].
    right. left. lia.
Qed.

(** ** The other fields of a row *)

(** X10.  For a row that [_parse_row] parsed: the title is the text of the
    title span when the row has one, even an empty one, and of the title
    link otherwise, and likewise the author; the score is the number of the
    first integer token in the text of the score anchor, null without such
    an anchor or token; [people_voted] is read in the same way from the
    lowercased text of the first anchor that contains "people voted",
    whatever later anchors say. *)
Theorem other_fields decimal lower tr row :
  _parse_row decimal lower tr = Returned row ->
  title row = or_else (title_span tr) (title_link tr) /\
  author row = or_else (author_span tr) (author_link tr) /\
  match score_link tr with
  | Some t => first_int decimal t (score row)
  | None => score row = None
  end /\
  match voted_anchor lower (links tr) with
  | Some txt => first_int decimal txt (people_voted row)
  | None => people_voted row = None
  end.
Proof.
  unfold _parse_row.
  destruct (_to_float decimal (Some (mini_text tr))) as [a|e]; [|discriminate].
  destruct (ints_of decimal _) as [nums|e]; [|discriminate]. simpl.
  destruct (match score_link tr with Some t => _ | None => _ end) as [sc|e] eqn:Hsc;
    [|discriminate].
  rewrite people_voted_of_anchor.
  destruct (match voted_anchor lower (links tr) with Some t => _ | None => _ end)
    as [pv|e] eqn:Hpv; [|discriminate].
  simpl. intros [= <-]. cbn [title author score people_voted].
  split; [reflexivity|]. split; [reflexivity|]. split.
  - destruct (score_link tr) as [t|]; [|now injection Hsc as <-].
    exact (_to_int_first decimal t sc Hsc).
  - destruct (voted_anchor lower (links tr)) as [txt|]; [|now injection Hpv as <-].
    exact (_to_int_first decimal txt pv Hpv).
Qed.

Lemma other_fields_witness :
  _parse_row ascii_decimal ascii_lower Samples.dune = Returned Samples.dune_record /\
  title Samples.dune_record = Some (lit "Dune") /\
  author Samples.dune_record = Some (lit "Frank Herbert") /\
  first_int ascii_decimal (lit "score: 2,947,818") (Some 2947818) /\
  first_int ascii_decimal (lit "30,210 people voted") (Some 30210).
Proof.
  split; [reflexivity|].
  exact (other_fields ascii_decimal ascii_lower Samples.dune Samples.dune_record eq_refl).
Defined.

(** ** The pages the crawl depends on *)

Section Frame.

Variable decimal : char -> option N.
Variable lower : str -> str.
Variable web web' : Z -> Response.
Variable num_books max_pages : Z.

Hypothesis same_pages : forall p, 1 <= p <= max_pages -> web p = web' p.

Lemma turn_same st :
  web (page st) = web' (page st) ->
  turn decimal lower web num_books st = turn decimal lower web' num_books st.
Proof. unfold turn. cbn [say page]. now intros ->. Qed.

Lemma while_loop_same fuel st :
  1 <= page st ->
  while_loop decimal lower web num_books max_pages fuel st
    = while_loop decimal lower web' num_books max_pages fuel st.
Proof.
  revert st. induction fuel as [|fuel IH]; intros st Hp; [reflexivity|].
  simpl. destruct (cond num_books max_pages st) eqn:Hc; [|reflexivity].
  assert (Hle : page st <= max_pages).
  { unfold cond in Hc. apply andb_true_iff in Hc as [_ Hle]. now apply Z.leb_le in Hle. }
  rewrite <- (turn_same st (same_pages _ (conj Hp Hle))).
  destruct (turn decimal lower web num_books st) as [st' [how|]] eqn:Ht; [reflexivity|].
  apply IH. apply (turn_next_page decimal lower web num_books) in Ht. lia.
Qed.

End Frame.

(** X11.  The crawl depends on the source through pages [1 .. max_pages]
    only: on two sources that answer these pages alike it makes the same
    requests, prints the same lines and hands on the same records,
    whatever the sources answer for any other page. *)
Theorem only_pages_up_to_max_pages decimal lower web web' num_books max_pages :
  (forall p, 1 <= p <= max_pages -> web p = web' p) ->
  fetch_goodreads_books decimal lower web num_books max_pages
    = fetch_goodreads_books decimal lower web' num_books max_pages.
Proof.
  intros Hsame. unfold fetch_goodreads_books.
  now rewrite (while_loop_same decimal lower web web' num_books max_pages Hsame _ start).
Qed.

Lemma patchy_web_same p : 1 <= p <= 3 -> Samples.empty_web p = Samples.patchy_web p.
Proof.
  intros Hp. unfold Samples.patchy_web.
  destruct (p =? 9) eqn:E; [apply Z.eqb_eq in E; lia|reflexivity].
Qed.

Lemma only_pages_up_to_max_pages_witness :
  (forall p, 1 <= p <= 3 -> Samples.empty_web p = Samples.patchy_web p) /\
  fetch_goodreads_books ascii_decimal ascii_lower Samples.empty_web 5 3
    = fetch_goodreads_books ascii_decimal ascii_lower Samples.patchy_web 5 3.
Proof.
  split; [exact patchy_web_same|].
  exact (only_pages_up_to_max_pages ascii_decimal ascii_lower
           Samples.empty_web Samples.patchy_web 5 3 patchy_web_same).
Defined.

(** ** Two edges of the libraries *)

(** [int] at its limit: a numeral of 4300 digits is read, one of 4301 is
    refused, and with it [_to_int]. *)
Example int_digit_limit :
  returns (py_int ascii_decimal (repeat 49%N 4300)) /\
  py_int ascii_decimal (repeat 49%N 4301) = Raised ValueError /\
  _to_int ascii_decimal (Some (repeat 49%N 4301)) = Raised ValueError.
Proof.
  split; [|split; vm_compute; reflexivity].
  destruct (py_int ascii_decimal (repeat 49%N 4300)) as [n|e] eqn:E; [now exists n|].
  vm_compute in E. discriminate.
Qed.



(** The frame is built before the de-duplication and the clipping; these
    drop no row of a collected list and the mock records have no missing
    cell, so the records handed on hold [nan] exactly where the frame was
    built with it. *)
Lemma frame_nan_handed_on decimal lower web num_books max_pages st how :
  while_loop decimal lower web num_books max_pages (S (Z.to_nat max_pages)) start
    = Some (st, how) ->
  frame_nan (book_data (finish num_books st how))
    = frame_nan (match books st with
                 | [] => head num_books mock_books
                 | _ => books st
                 end).
Proof.
  intros Hloop.
  destruct (fetch_exit decimal lower web num_books max_pages)
    as (st' & how' & Hloop' & (k & read & rest & _ & _ & _ & Hc & Hlen & _) & _).
  rewrite Hloop in Hloop'. injection Hloop' as <- <-.
  assert (Hmock : forall j, frame_nan (firstn j mock_books) = false).
  { intros [|[|j]]; [reflexivity|reflexivity|].
    now rewrite (firstn_all2 (n := S (S j)) mock_books) by (simpl; lia). }
  destruct (books st) as [|b bs] eqn:E.
  - destruct (finish_fallback num_books st how E) as [-> _].
    destruct (head_prefix num_books mock_books) as [j ->]. rewrite drop_duplicates_mock.
    destruct (head_prefix num_books (firstn j mock_books)) as [i ->].
    rewrite firstn_firstn. now rewrite !Hmock.
  - rewrite <- E in *. f_equal. apply finish_collected; [rewrite E; discriminate| |exact Hlen].
    apply (col_nodup _ _ _ _ Hc).
Qed.
